(** * Conical Kresling origami: the mechanical model [KreslingModel]

    A shallow embedding of [KreslingModel.js] (the class [KreslingModel]) and
    of the parameter-update path of [KreslingController.js]
    ([updateModelParameter], [updateModel]), followed by the properties of
    the model that the specification states.  The methods embedded are the
    constructor, [computeCreaseLength], [computeEnergy],
    [findEquilibriumTwistAngle], [findStableStates], [isBistable] and
    [calculatePhase]; an instance is a record of its fields, and a method
    that writes a field returns the instance after the call.  Further on
    come [computeEnergyLandscape], [computeEnergyBarrier],
    [computeH0ForPhi0] and [getVertexCoordinates] (their loops run on fuel)
    and the branch that [updateStableStatesInfo] takes.

    ** Numbers

    JavaScript numbers are modelled by the type [number]: a real number, one
    of the two infinities, or NaN.  The special values follow IEEE-754 as
    JavaScript exposes it (what is NaN, what overflows to an infinity by a
    division by zero, that every comparison with NaN is false, that [0] and
    [NaN] are falsy).  On finite values the arithmetic is the exact
    arithmetic of the reals: rounding, overflow of finite results and the
    sign of zero are not modelled (a zero divisor counts as [+0]), and
    [Math.PI], [Math.sin], [Math.cos], [Math.asin] and [Math.sqrt] are the
    mathematical constant and functions.  This is the reading the
    specification itself takes ("all arithmetic is real-valued").

    The sign of the energy, the outcome of the grid search and the heights
    that [distributeHeight] of [EnergyProgrammer.js] shares out depend on
    rounding and on overflow.  They are stated on a second embedding, the
    module [Rounded], of the constructor, [computeCreaseLength],
    [computeEnergy], [findEquilibriumTwistAngle] and [distributeHeight], in
    which the rounding of a finite result and [Math.sin], [Math.cos] are
    parameters (the record [Arithmetic]); the exact arithmetic is one
    instance of it, and an arithmetic that overflows is another. *)

From Stdlib Require Import Reals Lra Lia Bool List String.
Import ListNotations.

Open Scope R_scope.

(* ================================================================= *)
(** ** JavaScript numbers *)

Inductive number : Type :=
  | NaN : number
  | Inf (neg : bool) : number      (* [Inf false] is Infinity, [Inf true] is -Infinity *)
  | Num (x : R) : number.

Declare Scope js_scope.
Delimit Scope js_scope with js.
Bind Scope js_scope with number.

Abbreviation Infinity := (Inf false).

Definition Rltb (x y : R) : bool := if Rlt_dec x y then true else false.
Definition Rleb (x y : R) : bool := if Rle_dec x y then true else false.
Definition Reqb (x y : R) : bool := if Req_dec_T x y then true else false.

(** [x + y] *)
Definition jadd (x y : number) : number :=
  match x, y with
  | NaN, _ | _, NaN => NaN
  | Inf s, Inf t => if Bool.eqb s t then Inf s else NaN
  | Inf s, Num _ | Num _, Inf s => Inf s
  | Num u, Num v => Num (u + v)
  end.

(** [x - y] *)
Definition jsub (x y : number) : number :=
  match x, y with
  | NaN, _ | _, NaN => NaN
  | Inf s, Inf t => if Bool.eqb s t then NaN else Inf s
  | Inf s, Num _ => Inf s
  | Num _, Inf t => Inf (negb t)
  | Num u, Num v => Num (u - v)
  end.

(** [x * y] *)
Definition jmul (x y : number) : number :=
  match x, y with
  | NaN, _ | _, NaN => NaN
  | Inf s, Inf t => Inf (xorb s t)
  | Inf s, Num v | Num v, Inf s =>
      if Reqb v 0 then NaN else Inf (xorb s (Rltb v 0))
  | Num u, Num v => Num (u * v)
  end.

(** [x / y] *)
Definition jdiv (x y : number) : number :=
  match x, y with
  | NaN, _ | _, NaN => NaN
  | Inf _, Inf _ => NaN
  | Inf s, Num v => Inf (xorb s (Rltb v 0))
  | Num _, Inf _ => Num 0
  | Num u, Num v =>
      if Reqb v 0
      then (if Reqb u 0 then NaN else Inf (Rltb u 0))
      else Num (u / v)
  end.

(** [x ** k] for a literal natural exponent [k] *)
Definition jpow (x : number) (k : nat) : number :=
  match k with
  | O => Num 1
  | S _ =>
      match x with
      | NaN => NaN
      | Inf s => Inf (s && Nat.odd k)
      | Num u => Num (u ^ k)
      end
  end.

(** [x < y], [x <= y], [x > y], [x >= y] *)
Definition jlt (x y : number) : bool :=
  match x, y with
  | NaN, _ | _, NaN => false
  | Inf s, Inf t => s && negb t
  | Inf s, Num _ => s
  | Num _, Inf t => negb t
  | Num u, Num v => Rltb u v
  end.

Definition jle (x y : number) : bool :=
  match x, y with
  | NaN, _ | _, NaN => false
  | Inf s, Inf t => s || negb t
  | Inf s, Num _ => s
  | Num _, Inf t => negb t
  | Num u, Num v => Rleb u v
  end.

Definition jgt (x y : number) : bool := jlt y x.
Definition jge (x y : number) : bool := jle y x.

(** ToBoolean on a number: [0] and [NaN] are falsy *)
Definition truthy (x : number) : bool :=
  match x with
  | NaN => false
  | Inf _ => true
  | Num u => negb (Reqb u 0)
  end.

(** [v || dflt] where [v] may be [undefined] ([None]) *)
Definition or_default (v : option number) (dflt : number) : number :=
  match v with
  | Some x => if truthy x then x else dflt
  | None => dflt
  end.

Infix "+" := jadd : js_scope.
Infix "-" := jsub : js_scope.
Infix "*" := jmul : js_scope.
Infix "/" := jdiv : js_scope.
Notation "x ** k" := (jpow x k) (at level 30, right associativity) : js_scope.
Infix "<" := jlt : js_scope.
Infix "<=" := jle : js_scope.
Infix ">" := jgt : js_scope.
Infix ">=" := jge : js_scope.

(** The [Math] object *)
Definition Math_PI : number := Num PI.

Definition Math_sqrt (x : number) : number :=
  match x with
  | NaN => NaN
  | Inf s => if s then NaN else Infinity
  | Num u => if Rltb u 0 then NaN else Num (sqrt u)
  end.

Definition Math_sin (x : number) : number :=
  match x with Num u => Num (sin u) | _ => NaN end.

Definition Math_cos (x : number) : number :=
  match x with Num u => Num (cos u) | _ => NaN end.

Definition Math_asin (x : number) : number :=
  match x with
  | Num u => if Rleb (Rabs u) 1 then Num (asin u) else NaN
  | _ => NaN
  end.

Definition Math_abs (x : number) : number :=
  match x with
  | NaN => NaN
  | Inf _ => Infinity
  | Num u => Num (Rabs u)
  end.

Definition Math_max (x y : number) : number :=
  match x, y with
  | NaN, _ | _, NaN => NaN
  | Inf s, Inf t => Inf (s && t)
  | Inf s, Num v | Num v, Inf s => if s then Num v else Infinity
  | Num u, Num v => Num (Rmax u v)
  end.

Definition Math_min (x y : number) : number :=
  match x, y with
  | NaN, _ | _, NaN => NaN
  | Inf s, Inf t => Inf (s || t)
  | Inf s, Num v | Num v, Inf s => if s then Inf true else Num v
  | Num u, Num v => Num (Rmin u v)
  end.

(** A number literal *)
Coercion Num : R >-> number.

(** [for (let i = 0; i <= steps; i++) body] on a loop state [st] *)
Definition for_upto {St : Type} (steps : nat) (body : nat -> St -> St) (st : St) : St :=
  fold_left (fun s i => body i s) (seq 0 (S steps)) st.

(* ================================================================= *)
(** ** KreslingModel.js: class [KreslingModel] *)

(** A fold state [{ h, phi }] and the pair [{ state1, state2 }] that
    [findStableStates] returns; an absent state is [null]. *)
Record FoldState : Type := { h : number; phi : number }.

Record StableStates : Type :=
  { state1 : option FoldState; state2 : option FoldState }.

(** The argument of the constructor: every field may be missing
    ([undefined]). *)
Record params : Type :=
  { params_n : option number;
    params_a : option number;
    params_b : option number;
    params_c : option number;
    params_beta : option number;
    params_EA : option number }.

(** The fields of an instance.  [R_] is the field [R] of the source (the
    circumradius of the bottom polygon). *)
Record KreslingModel : Type :=
  { n : number;
    a : number;
    b : number;
    c : number;
    beta : number;
    d : number;
    r : number;
    R_ : number;
    EA : number;
    km : number;
    kv : number;
    _stableStates : option StableStates }.

Open Scope js_scope.

(** [constructor(params = {})] *)
Definition constructor (p : params) : KreslingModel :=
  let n := or_default (params_n p) 6 in
  let a := or_default (params_a p) 1 in
  let b := or_default (params_b p) 2 in
  let c := or_default (params_c p) 3 in
  let beta := or_default (params_beta p) (3 / 2)%R in
  let d := Math_sqrt (b ** 2 + c ** 2 - 2 * b * c * Math_cos beta) in
  let r := a / (2 * Math_sin (Math_PI / n)) in
  let R_ := b / (2 * Math_sin (Math_PI / n)) in
  let EA := or_default (params_EA p) 1 in
  let km := EA / c in
  let kv := EA / d in
  {| n := n; a := a; b := b; c := c; beta := beta;
     d := d; r := r; R_ := R_; EA := EA; km := km; kv := kv;
     _stableStates := None |}.

Definition computeCreaseLength (m : KreslingModel) (h phi : number)
  : number * number :=
  let cTilde :=
    Math_sqrt (h ** 2 + r m ** 2 + R_ m ** 2 - 2 * r m * R_ m * Math_cos phi) in
  let dTilde :=
    Math_sqrt (h ** 2 + r m ** 2 + R_ m ** 2
               - 2 * r m * R_ m * Math_cos (phi + 2 * Math_PI / n m)) in
  (cTilde, dTilde).

Definition computeEnergy (m : KreslingModel) (h phi : number) : number :=
  let '(cTilde, dTilde) := computeCreaseLength m h phi in
  let energy :=
    n m * km m * (cTilde - c m) ** 2 / 2 +
    n m * kv m * (dTilde - d m) ** 2 / 2 in
  energy.

Definition findEquilibriumTwistAngle (m : KreslingModel) (h : number) : number :=
  let phiMin : number := 0 in
  let phiMax := Math_min Math_PI (Math_PI - 2 * Math_PI / n m) in
  let steps := 100%nat in
  let phiStep := (phiMax - phiMin) / INR steps in
  let body (i : nat) (st : number * number) : number * number :=
    let '(minEnergy, minPhi) := st in
    let phi := phiMin + INR i * phiStep in
    let energy := computeEnergy m h phi in
    if energy < minEnergy then (energy, phi) else (minEnergy, minPhi) in
  snd (for_upto steps body (Infinity, Num 0)).

(** [lambda] as [findStableStates] and [calculatePhase] compute it *)
Definition lambda (m : KreslingModel) : number :=
  ((b m - 2 * c m * Math_cos (beta m)) / a m) * Math_sin (Math_PI / n m).

(** The body of [findStableStates] below the cache test *)
Definition computeStableStates (m : KreslingModel) : StableStates :=
  let lambda := lambda m in
  let state1 :=
    if Math_abs lambda <= 1 then
      let phi1 := Math_asin lambda - Math_PI / n m in
      let h1 := Math_sqrt (Math_max 0 (c m ** 2 - r m ** 2 - R_ m ** 2
                                       + 2 * r m * R_ m * Math_cos phi1)) in
      Some {| h := h1; phi := phi1 |}
    else None in
  let state2 :=
    if Math_abs lambda <= 1 then
      let phi2 := Math_PI - Math_asin lambda - Math_PI / n m in
      let h2 := Math_sqrt (Math_max 0 (c m ** 2 - r m ** 2 - R_ m ** 2
                                       + 2 * r m * R_ m * Math_cos phi2)) in
      Some {| h := h2; phi := phi2 |}
    else None in
  {| state1 := state1; state2 := state2 |}.

Definition set_stableStates (m : KreslingModel) (v : option StableStates)
  : KreslingModel :=
  {| n := n m; a := a m; b := b m; c := c m; beta := beta m;
     d := d m; r := r m; R_ := R_ m; EA := EA m; km := km m; kv := kv m;
     _stableStates := v |}.

(** [findStableStates()]: the result and the instance after the call *)
Definition findStableStates (m : KreslingModel) : StableStates * KreslingModel :=
  match _stableStates m with
  | Some cached => (cached, m)
  | None =>
      let res := computeStableStates m in
      (res, set_stableStates m (Some res))
  end.

Definition isSome {A : Type} (o : option A) : bool :=
  match o with Some _ => true | None => false end.

Definition isBistable (m : KreslingModel) : bool * KreslingModel :=
  let '(ss, m') := findStableStates m in
  (isSome (state1 ss) && isSome (state2 ss), m').

Definition calculatePhase (m : KreslingModel) : string * KreslingModel :=
  let '(ss, m') := findStableStates m in
  match state1 ss, state2 ss with
  | Some state1, Some state2 =>
      let lambda := lambda m' in
      if Math_abs lambda > 1 then ("monostable"%string, m')
      else
        let phi0 := Math_PI / 2 - Math_PI / n m' in
        let cfs := Math_sqrt (r m' ** 2 + R_ m' ** 2
                              + 2 * r m' * R_ m' * Math_cos (2 * Math_PI / n m')) in
        if c m' > cfs then ("bistable-zero-energy"%string, m')
        else if (phi state1 <= phi0) && (phi0 <= phi state2)
             then ("bistable-zero-energy"%string, m')
             else ("bistable-nonzero-energy"%string, m')
  | _, _ => ("monostable"%string, m')
  end.

(* ================================================================= *)
(** ** KreslingController.js: the parameter-update path *)

(** The parameter names that [updateModelParameter] receives: the five of
    the sliders and the stiffness coefficient. *)
Inductive param_name : Type := P_n | P_a | P_b | P_c | P_beta | P_EA.

Definition name_of (param : param_name) : string :=
  match param with
  | P_n => "n" | P_a => "a" | P_b => "b" | P_c => "c"
  | P_beta => "beta" | P_EA => "EA"
  end%string.

(** [this.model[param] = value] *)
Definition assign (m : KreslingModel) (param : param_name) (value : number)
  : KreslingModel :=
  let upd (q : param_name) (old : number) : number :=
    if String.eqb (name_of q) (name_of param) then value else old in
  {| n := upd P_n (n m); a := upd P_a (a m); b := upd P_b (b m);
     c := upd P_c (c m); beta := upd P_beta (beta m);
     d := d m; r := r m; R_ := R_ m;
     EA := upd P_EA (EA m); km := km m; kv := kv m;
     _stableStates := _stableStates m |}.

(** [this.model[param]] *)
Definition get (m : KreslingModel) (param : param_name) : number :=
  match param with
  | P_n => n m | P_a => a m | P_b => b m | P_c => c m
  | P_beta => beta m | P_EA => EA m
  end.

(** [['a', 'b', 'c', 'beta', 'n'].includes(param)] *)
Definition includes (l : list string) (s : string) : bool :=
  existsb (String.eqb s) l.

Definition geometric (param : param_name) : bool :=
  includes ["a"; "b"; "c"; "beta"; "n"]%string (name_of param).

(** The branch "Recalculate derived parameters" with "Clear cache for
    stable states": the assignments run in order, each reading the fields
    as they are at that point. *)
Definition recalculate (m : KreslingModel) : KreslingModel :=
  let d' := Math_sqrt (b m ** 2 + c m ** 2 - 2 * b m * c m * Math_cos (beta m)) in
  let r' := a m / (2 * Math_sin (Math_PI / n m)) in
  let R' := b m / (2 * Math_sin (Math_PI / n m)) in
  let km' := EA m / c m in
  let kv' := EA m / d' in
  {| n := n m; a := a m; b := b m; c := c m; beta := beta m;
     d := d'; r := r'; R_ := R'; EA := EA m; km := km'; kv := kv';
     _stableStates := None |}.

(** [updateModelParameter] up to, and without, its last statement
    [this.updateModel()] *)
Definition setModelParameter (param : param_name) (value : number)
  (m : KreslingModel) : KreslingModel :=
  let m1 := assign m param value in
  if geometric param then recalculate m1 else m1.

(** [updateModel()]: the visualizer, the state panel and the chart only read
    the model; what they leave behind in it is the cache that their calls to
    [findStableStates] fill. *)
Definition updateModel (m : KreslingModel) : KreslingModel :=
  snd (findStableStates m).

Definition updateModelParameter (param : param_name) (value : number)
  (m : KreslingModel) : KreslingModel :=
  updateModel (setModelParameter param value m).

(** The instances that the program can hold: a constructed one, and what
    the parameter updates and the queries make of it.  No other code of the
    program writes a field of a model. *)
Inductive reachable : KreslingModel -> Prop :=
  | reach_new (p : params) : reachable (constructor p)
  | reach_set (param : param_name) (value : number) (m : KreslingModel) :
      reachable m -> reachable (setModelParameter param value m)
  | reach_find (m : KreslingModel) :
      reachable m -> reachable (snd (findStableStates m)).

(** The instances whose derived quantities were computed after the last
    assignment to a parameter: a constructed one, one that a parameter
    update of a, b, c, beta or n has just recalculated, and what the queries
    make of these. *)
Inductive recalculated : KreslingModel -> Prop :=
  | recalc_new (p : params) : recalculated (constructor p)
  | recalc_set (param : param_name) (value : number) (m : KreslingModel) :
      geometric param = true ->
      recalculated (setModelParameter param value m)
  | recalc_find (m : KreslingModel) :
      recalculated m -> recalculated (snd (findStableStates m)).

(** The cache is empty or holds what the live fields give. *)
Definition cache_coherent (m : KreslingModel) : Prop :=
  _stableStates m = None \/ _stableStates m = Some (computeStableStates m).

(** *** The specification's reading of the queries *)

(** The phase as the specification words it, from the pair of stable states
    [ss] that [findStableStates] returned and the live fields of [m]. *)
Definition spec_phase (m : KreslingModel) (ss : StableStates) : string :=
  let absent := negb (isSome (state1 ss)) || negb (isSome (state2 ss)) in
  let phi0 := Math_PI / 2 - Math_PI / n m in
  let cfs := Math_sqrt (r m ** 2 + R_ m ** 2
                        + 2 * r m * R_ m * Math_cos (2 * Math_PI / n m)) in
  let between :=
    match state1 ss, state2 ss with
    | Some s1, Some s2 => (phi s1 <= phi0) && (phi0 <= phi s2)
    | _, _ => false
    end in
  if absent || (Math_abs (lambda m) > 1) then "monostable"%string
  else if (c m > cfs) || between then "bistable-zero-energy"%string
  else "bistable-nonzero-energy"%string.

(** The crease lengths and the energy as the specification gives them, the
    stiffnesses being [EA/c] and [EA/d] of the fields as they are now. *)
Definition spec_cTilde (m : KreslingModel) (h phi : number) : number :=
  Math_sqrt (h ** 2 + r m ** 2 + R_ m ** 2 - 2 * r m * R_ m * Math_cos phi).

Definition spec_dTilde (m : KreslingModel) (h phi : number) : number :=
  Math_sqrt (h ** 2 + r m ** 2 + R_ m ** 2
             - 2 * r m * R_ m * Math_cos (phi + 2 * Math_PI / n m)).

Definition spec_energy (m : KreslingModel) (h phi : number) : number :=
  let km := EA m / c m in
  let kv := EA m / d m in
  n m * km * (spec_cTilde m h phi - c m) ** 2 / 2 +
  n m * kv * (spec_dTilde m h phi - d m) ** 2 / 2.

(** A number that is neither NaN nor an infinity *)
Definition finite (x : number) : bool :=
  match x with Num _ => true | _ => false end.

(** A parameter set within the documented constraints, all six supplied *)
Definition valid_params (k : nat) (va vb vc vbeta vEA : R) : params :=
  {| params_n := Some (Num (INR k)); params_a := Some (Num va);
     params_b := Some (Num vb); params_c := Some (Num vc);
     params_beta := Some (Num vbeta); params_EA := Some (Num vEA) |}.

(** The constructor's argument [{}] *)
Definition no_params : params :=
  {| params_n := None; params_a := None; params_b := None;
     params_c := None; params_beta := None; params_EA := None |}.

Close Scope js_scope.

(** *** The formulas over the reals *)

Definition real_d (vb vc vbeta : R) : R :=
  sqrt (vb ^ 2 + vc ^ 2 - 2 * vb * vc * cos vbeta).

Definition real_radius (edge vn : R) : R := edge / (2 * sin (PI / vn)).

Definition real_cTilde (vr vR h phi : R) : R :=
  sqrt (h ^ 2 + vr ^ 2 + vR ^ 2 - 2 * vr * vR * cos phi).

Definition real_dTilde (vn vr vR h phi : R) : R :=
  sqrt (h ^ 2 + vr ^ 2 + vR ^ 2 - 2 * vr * vR * cos (phi + 2 * PI / vn)).

Definition real_energy (vn vkm vkv vc vd cTilde dTilde : R) : R :=
  vn * vkm * (cTilde - vc) ^ 2 / 2 + vn * vkv * (dTilde - vd) ^ 2 / 2.

(** The fields that the energy reads are finite, with these values. *)
Definition energy_fields (m : KreslingModel) (vn vc vd vr vR vkm vkv : R) : Prop :=
  n m = Num vn /\ c m = Num vc /\ d m = Num vd /\ r m = Num vr /\
  R_ m = Num vR /\ km m = Num vkm /\ kv m = Num vkv.

(* ================================================================= *)
(** ** KreslingModel.js: the other queries *)

Open Scope js_scope.

(** [- x] *)
Definition jneg (x : number) : number :=
  match x with
  | NaN => NaN
  | Inf s => Inf (negb s)
  | Num u => Num (- u)
  end.

Notation "- x" := (jneg x) : js_scope.

(** [for (let i = 0; cond(i); i++) body] on a loop state [st], the counter
    starting at [i]; [None] when [fuel] tests of the condition did not end
    the loop. *)
Fixpoint for_while {St : Type} (fuel : nat) (cond : number -> bool)
  (body : number -> St -> St) (i : nat) (st : St) : option St :=
  match fuel with
  | O => None
  | S fuel' =>
      if cond (Num (INR i))
      then for_while fuel' cond body (S i) (body (Num (INR i)) st)
      else Some st
  end.

(** A default parameter value [x = dflt]: it applies to [undefined] only. *)
Definition default_arg (v : option number) (dflt : number) : number :=
  match v with Some x => x | None => dflt end.

(** [computeEnergyLandscape(hMin = 0, hMax = 4, steps = 100)]; a point
    [[h, energy]] is a pair. *)
Definition computeEnergyLandscape (fuel : nat) (m : KreslingModel)
  (hMin hMax steps : option number) : option (list (number * number)) :=
  let hMin := default_arg hMin 0 in
  let hMax := default_arg hMax 4 in
  let steps := default_arg steps 100 in
  let hStep := (hMax - hMin) / steps in
  for_while fuel (fun i => i <= steps)
    (fun i result =>
       let h := hMin + i * hStep in
       let phi := findEquilibriumTwistAngle m h in
       let energy := computeEnergy m h phi in
       result ++ [(h, energy)])
    0 [].

Definition computeH0ForPhi0 (m : KreslingModel) (phi0 : number) : number :=
  let h0Estimate :=
    Math_sqrt (Math_max 0 (c m ** 2 - r m ** 2 - R_ m ** 2
                           + 2 * r m * R_ m * Math_sin (Math_PI / n m))) in
  h0Estimate.

Definition computeEnergyBarrier (m : KreslingModel) : number :=
  let phi0 := Math_PI / 2 - Math_PI / n m in
  let h0 := computeH0ForPhi0 m phi0 in
  let maxEnergy := computeEnergy m h0 phi0 in
  maxEnergy.

(** A point [[x, y, z]] *)
Definition vec3 : Type := (number * number * number)%type.

Record VertexCoordinates : Type :=
  { topVertices : list vec3; bottomVertices : list vec3; midPoint : vec3 }.

Definition getVertexCoordinates (fuel : nat) (m : KreslingModel)
  (h phi : number) : option VertexCoordinates :=
  let midPoint : vec3 := (Num 0, Num 0, h / 2) in
  let body (i : number) (st : list vec3 * list vec3) : list vec3 * list vec3 :=
    let '(topVertices, bottomVertices) := st in
    let bottomAngle := i * 2 * Math_PI / n m in
    let bottomX := R_ m * Math_cos bottomAngle in
    let bottomY := R_ m * Math_sin bottomAngle in
    let bottomZ := - h / 2 in
    let bottomVertices := bottomVertices ++ [(bottomX, bottomY, bottomZ)] in
    let topAngle := i * 2 * Math_PI / n m + phi in
    let topX := r m * Math_cos topAngle in
    let topY := r m * Math_sin topAngle in
    let topZ := h / 2 in
    let topVertices := topVertices ++ [(topX, topY, topZ)] in
    (topVertices, bottomVertices) in
  match for_while fuel (fun i => i < n m) body 0 ([], []) with
  | Some (topVertices, bottomVertices) =>
      Some {| topVertices := topVertices; bottomVertices := bottomVertices;
              midPoint := midPoint |}
  | None => None
  end.

(* ================================================================= *)
(** ** KreslingController.js: the state panel *)

(** What [updateStableStatesInfo] renders: the template it picks (the
    "Bistable Configuration" table, the "Monostable Configuration" lines, the
    "No stable states found" note) and the numbers it prints in it. *)
Inductive StateInfo : Type :=
  | InfoBistable (state1 state2 : FoldState) (energyBarrier : number)
  | InfoMonostable (state : FoldState)
  | InfoUnstable.

Definition updateStableStatesInfo (m : KreslingModel) : StateInfo * KreslingModel :=
  let '(ss, m') := findStableStates m in
  match state1 ss, state2 ss with
  | Some state1, Some state2 =>
      let energyBarrier := computeEnergyBarrier m' in
      (InfoBistable state1 state2 energyBarrier, m')
  | Some state1, None => (InfoMonostable state1, m')
  | None, Some state2 => (InfoMonostable state2, m')
  | None, None => (InfoUnstable, m')
  end.

(** *** Measures used to state the properties *)

(** The six parameters of an instance, as a constructor argument *)
Definition params_of (m : KreslingModel) : params :=
  {| params_n := Some (n m); params_a := Some (a m); params_b := Some (b m);
     params_c := Some (c m); params_beta := Some (beta m);
     params_EA := Some (EA m) |}.

Close Scope js_scope.

(** Vertex [i] of the bottom and of the top polygon as the loop of
    [getVertexCoordinates] computes it *)
Definition bottomVertex (m : KreslingModel) (h : number) (i : nat) : vec3 :=
  (jmul (R_ m) (Math_cos (jdiv (jmul (jmul (Num (INR i)) (Num 2)) Math_PI) (n m))),
   jmul (R_ m) (Math_sin (jdiv (jmul (jmul (Num (INR i)) (Num 2)) Math_PI) (n m))),
   jdiv (jneg h) (Num 2)).

Definition topVertex (m : KreslingModel) (h phi : number) (i : nat) : vec3 :=
  (jmul (r m) (Math_cos (jadd (jdiv (jmul (jmul (Num (INR i)) (Num 2)) Math_PI) (n m)) phi)),
   jmul (r m) (Math_sin (jadd (jdiv (jmul (jmul (Num (INR i)) (Num 2)) Math_PI) (n m)) phi)),
   jdiv h (Num 2)).

(** *** Concrete inputs *)

(** A unit with the cell count 2.5 *)
Definition fractional_params : params :=
  {| params_n := Some (Num (5 / 2)); params_a := None; params_b := None;
     params_c := None; params_beta := None; params_EA := None |}.


(* ================================================================= *)
(** ** The code on the arithmetic of the platform *)

(** Where a result depends on how finite results are rounded, the
    arithmetic is a parameter of the embedding: [rnd x] is the number that
    an operation returns when its exact result is the real [x] (a finite
    number near [x], or an infinity when [x] is out of range), and [sin_of],
    [cos_of] are [Math.sin] and [Math.cos] of the platform.  What the
    operations do on NaN, on the infinities and on a zero divisor, and the
    comparisons, are as above. *)
Record Arithmetic : Type :=
  { rnd : R -> number;
    sin_of : number -> number;
    cos_of : number -> number }.

(** EnergyProgrammer.js: an entry of [optimizedParameters] *)
Record LayerParameters : Type :=
  { b1 : number; b2 : number; layer_c : number; layer_beta : number;
    h1 : number; h2 : number; energyBarrier : number }.

Declare Scope rounded_scope.
Delimit Scope rounded_scope with rounded.

Module Rounded.

Section Operations.

Variable A : Arithmetic.

(** [x + y] *)
Definition add (x y : number) : number :=
  match x, y with
  | NaN, _ | _, NaN => NaN
  | Inf s, Inf t => if Bool.eqb s t then Inf s else NaN
  | Inf s, Num _ | Num _, Inf s => Inf s
  | Num u, Num v => rnd A (u + v)
  end.

(** [x - y] *)
Definition sub (x y : number) : number :=
  match x, y with
  | NaN, _ | _, NaN => NaN
  | Inf s, Inf t => if Bool.eqb s t then NaN else Inf s
  | Inf s, Num _ => Inf s
  | Num _, Inf t => Inf (negb t)
  | Num u, Num v => rnd A (u - v)
  end.

(** [x * y] *)
Definition mul (x y : number) : number :=
  match x, y with
  | NaN, _ | _, NaN => NaN
  | Inf s, Inf t => Inf (xorb s t)
  | Inf s, Num v | Num v, Inf s =>
      if Reqb v 0 then NaN else Inf (xorb s (Rltb v 0))
  | Num u, Num v => rnd A (u * v)
  end.

(** [x / y] *)
Definition div (x y : number) : number :=
  match x, y with
  | NaN, _ | _, NaN => NaN
  | Inf _, Inf _ => NaN
  | Inf s, Num v => Inf (xorb s (Rltb v 0))
  | Num _, Inf _ => Num 0
  | Num u, Num v =>
      if Reqb v 0
      then (if Reqb u 0 then NaN else Inf (Rltb u 0))
      else rnd A (u / v)
  end.

(** [x ** k] for a literal natural exponent [k] *)
Definition pow (x : number) (k : nat) : number :=
  match k with
  | O => Num 1
  | S _ =>
      match x with
      | NaN => NaN
      | Inf s => Inf (s && Nat.odd k)
      | Num u => rnd A (u ^ k)
      end
  end.

Arguments add (x y)%_rounded.
Arguments sub (x y)%_rounded.
Arguments mul (x y)%_rounded.
Arguments div (x y)%_rounded.
Arguments pow x%_rounded k%_nat.

Local Infix "+" := add : rounded_scope.
Local Infix "-" := sub : rounded_scope.
Local Infix "*" := mul : rounded_scope.
Local Infix "/" := div : rounded_scope.
Local Notation "x ** k" := (pow x k) (at level 30, right associativity)
  : rounded_scope.
Local Infix "<" := jlt : rounded_scope.
Local Infix ">=" := jge : rounded_scope.

Local Open Scope rounded_scope.

(** The [Math] object *)
Definition Math_PI : number := rnd A PI.

Definition Math_sqrt (x : number) : number :=
  match x with
  | NaN => NaN
  | Inf s => if s then NaN else Infinity
  | Num u => if Rltb u 0 then NaN else rnd A (sqrt u)
  end.

Definition Math_sin (x : number) : number := sin_of A x.

Definition Math_cos (x : number) : number := cos_of A x.

Arguments Math_sqrt x%_rounded.
Arguments Math_sin x%_rounded.
Arguments Math_cos x%_rounded.

(** [constructor(params = {})] *)
Definition constructor (p : params) : KreslingModel :=
  let n := or_default (params_n p) 6 in
  let a := or_default (params_a p) 1 in
  let b := or_default (params_b p) 2 in
  let c := or_default (params_c p) 3 in
  let beta := or_default (params_beta p) (3 / 2)%R in
  let d := Math_sqrt (b ** 2 + c ** 2 - 2 * b * c * Math_cos beta) in
  let r := a / (2 * Math_sin (Math_PI / n)) in
  let R_ := b / (2 * Math_sin (Math_PI / n)) in
  let EA := or_default (params_EA p) 1 in
  let km := EA / c in
  let kv := EA / d in
  {| n := n; a := a; b := b; c := c; beta := beta;
     d := d; r := r; R_ := R_; EA := EA; km := km; kv := kv;
     _stableStates := None |}.

Definition computeCreaseLength (m : KreslingModel) (h phi : number)
  : number * number :=
  let cTilde :=
    Math_sqrt (h ** 2 + r m ** 2 + R_ m ** 2 - 2 * r m * R_ m * Math_cos phi) in
  let dTilde :=
    Math_sqrt (h ** 2 + r m ** 2 + R_ m ** 2
               - 2 * r m * R_ m * Math_cos (phi + 2 * Math_PI / n m)) in
  (cTilde, dTilde).

Definition computeEnergy (m : KreslingModel) (h phi : number) : number :=
  let '(cTilde, dTilde) := computeCreaseLength m h phi in
  let energy :=
    n m * km m * (cTilde - c m) ** 2 / 2 +
    n m * kv m * (dTilde - d m) ** 2 / 2 in
  energy.

Definition findEquilibriumTwistAngle (m : KreslingModel) (h : number) : number :=
  let phiMin : number := 0%R in
  let phiMax := Math_min Math_PI (Math_PI - 2 * Math_PI / n m)%rounded in
  let steps := 100%nat in
  let phiStep := (phiMax - phiMin) / INR steps in
  let body (i : nat) (st : number * number) : number * number :=
    let '(minEnergy, minPhi) := st in
    let phi := phiMin + INR i * phiStep in
    let energy := computeEnergy m h phi in
    if energy < minEnergy then (energy, phi) else (minEnergy, minPhi) in
  snd (for_upto steps body (Infinity, Num 0)).

(** The twist angle that the loop of [findEquilibriumTwistAngle] gives to
    sample [i]: [phiMin + i * phiStep]. *)
Definition loop_angle (m : KreslingModel) (i : nat) : number :=
  let phiMin : number := 0%R in
  let phiMax := Math_min Math_PI (Math_PI - 2 * Math_PI / n m)%rounded in
  let steps := 100%nat in
  let phiStep := (phiMax - phiMin) / INR steps in
  (phiMin + INR i * phiStep)%rounded.

(** The [i]-th sample of the grid of twist angles as the specification
    writes it, [i * min(pi, pi - 2*pi/n) / 100]. *)
Definition grid_sample (m : KreslingModel) (i : nat) : number :=
  (INR i * Math_min Math_PI (Math_PI - 2 * Math_PI / n m)%rounded / 100)%rounded.

(** EnergyProgrammer.js: [distributeHeight(totalHeight)] on the entries of
    [this.optimizedParameters] *)
Definition distributeHeight (optimizedParameters : list LayerParameters)
  (totalHeight : number) : list number :=
  let deployedHeights := map (fun params => h1 params) optimizedParameters in
  let totalDeployedHeight :=
    fold_left (fun sum h => sum + h) deployedHeights (Num 0) in
  if totalHeight >= totalDeployedHeight then deployedHeights
  else
    let ratio := totalHeight / totalDeployedHeight in
    map (fun h => h * ratio) deployedHeights.

End Operations.

End Rounded.

(** The exact arithmetic of the reals: nothing is rounded. *)
Definition exact_arithmetic : Arithmetic :=
  {| rnd := Num; sin_of := Math_sin; cos_of := Math_cos |}.

(** An arithmetic that overflows: a result of magnitude [2 ^ 1024] or more,
    which no finite number of the platform is near, is an infinity. *)
Definition overflow_threshold : R := 2 ^ 1024.

Definition overflowing_arithmetic : Arithmetic :=
  {| rnd := fun x => if Rleb overflow_threshold (Rabs x)
                     then Inf (Rltb x 0) else Num x;
     sin_of := Math_sin; cos_of := Math_cos |}.

(** The edge length [2 ^ 600], whose square is out of range *)
Definition huge_edge : R := 2 ^ 600.

(** A number that is Infinity or at least [2 ^ 599] *)
Definition large (x : number) : Prop :=
  x = Infinity \/ exists v, x = Num v /\ 2 ^ 599 <= v.

(** Rounding keeps a result that is not negative from becoming negative. *)
Definition sign_preserving (A : Arithmetic) : Prop :=
  forall x : R, 0 <= x -> jle (Num 0) (rnd A x) = true.

(** Rounding keeps the order of two results. *)
Definition monotone (A : Arithmetic) : Prop :=
  forall x y : R, x <= y -> jle (rnd A x) (rnd A y) = true.

(** The real [x] is one of the finite numbers of the arithmetic: rounding
    leaves it as it is. *)
Definition representable (A : Arithmetic) (x : R) : Prop := rnd A x = Num x.

(** What the failure of a unit with huge edges needs of an arithmetic, all
    of it true of IEEE-754 binary64 with round-to-nearest: rounding keeps
    the order, a result of [2 ^ 1024] or more is Infinity, 0 and the powers
    [2 ^ k] and [2 ^ -k], k <= 1023, are finite numbers of the arithmetic,
    [Math.cos(0)] is 1, and [Math.sin] of an angle between 1/4 and 1 is a
    number above 0 and at most 1. *)
Definition binary64_like (A : Arithmetic) : Prop :=
  monotone A /\
  (forall x : R, overflow_threshold <= x -> rnd A x = Infinity) /\
  representable A 0 /\
  (forall k : nat, (k <= 1023)%nat ->
     representable A (2 ^ k) /\ representable A (/ 2 ^ k)) /\
  cos_of A (Num 0) = Num 1 /\
  (forall u : R, / 4 <= u <= 1 ->
     exists s, sin_of A (Num u) = Num s /\ 0 < s <= 1).

(** NaN, or a number that is at least 0 *)
Definition never_negative (x : number) : Prop :=
  x = NaN \/ jle (Num 0) x = true.

(** One iteration of the loop of [findEquilibriumTwistAngle] when sample [i]
    has the energy [E i] and the twist angle [P i]. *)
Definition keep_lower (E P : nat -> number) (i : nat)
  (st : number * number) : number * number :=
  let '(minEnergy, minPhi) := st in
  if jlt (E i) minEnergy then (E i, P i) else (minEnergy, minPhi).

(** What the loop holds after the samples below [s]: nothing yet, no sample
    having had an energy below Infinity, or the first sample [i] that no
    sample has a lower energy than. *)
Definition search_state (E P : nat -> number) (s : nat)
  (st : number * number) : Prop :=
  (st = (Infinity, Num 0) /\
   forall j, (j < s)%nat -> jlt (E j) Infinity = false) \/
  (exists i, (i < s)%nat /\ st = (E i, P i) /\
     jlt (E i) Infinity = true /\
     (forall j, (j < s)%nat -> jlt (E j) (E i) = false) /\
     (forall j, (j < i)%nat -> E j = NaN \/ jlt (E i) (E j) = true)).

(** Two layers with the deployed heights 0.8 and 0.6 that
    [initLayerTargetParameters] sets, on the parameters of the bilayer of
    [optimizeParameters] *)
Definition example_layers : list LayerParameters :=
  [ {| b1 := Num (10371 / 10000); b2 := Num (4715 / 10000); layer_c := Num 1;
       layer_beta := Num (1513 / 1000); h1 := Num (4 / 5); h2 := Num 0;
       energyBarrier := Num (1 / 1000) |};
    {| b1 := Num (4715 / 10000); b2 := Num (2640 / 10000);
       layer_c := Num (5064 / 10000); layer_beta := Num (15894 / 10000);
       h1 := Num (3 / 5); h2 := Num 0; energyBarrier := Num (2 / 1000) |} ].

(* ================================================================= *)
(** * Properties *)

(** ** Comparisons and truthiness on the reals *)

Lemma Reqb_true (x y : R) : x = y -> Reqb x y = true.
Proof. intros H; unfold Reqb; destruct (Req_dec_T x y); [reflexivity | contradiction]. Qed.

Lemma Reqb_false (x y : R) : x <> y -> Reqb x y = false.
Proof. intros H; unfold Reqb; destruct (Req_dec_T x y); [contradiction | reflexivity]. Qed.

Lemma Rltb_true (x y : R) : x < y -> Rltb x y = true.
Proof. intros H; unfold Rltb; destruct (Rlt_dec x y); [reflexivity | contradiction]. Qed.

Lemma Rltb_false (x y : R) : y <= x -> Rltb x y = false.
Proof. intros H; unfold Rltb; destruct (Rlt_dec x y); [lra | reflexivity]. Qed.

Lemma Rleb_true (x y : R) : x <= y -> Rleb x y = true.
Proof. intros H; unfold Rleb; destruct (Rle_dec x y); [reflexivity | contradiction]. Qed.

Lemma Rleb_false (x y : R) : y < x -> Rleb x y = false.
Proof. intros H; unfold Rleb; destruct (Rle_dec x y); [lra | reflexivity]. Qed.

Lemma Rltb_spec (x y : R) : Rltb x y = true <-> x < y.
Proof. unfold Rltb; destruct (Rlt_dec x y); split; intros; [assumption|reflexivity|discriminate|contradiction]. Qed.

Lemma truthy_Num (x : R) : x <> 0 -> truthy (Num x) = true.
Proof. intros H; simpl; rewrite Reqb_false by assumption; reflexivity. Qed.

Lemma or_default_truthy (x dflt : number) :
  truthy x = true -> or_default (Some x) dflt = x.
Proof. intros H; simpl; rewrite H; reflexivity. Qed.

Lemma or_default_falsy (x dflt : number) :
  truthy x = false -> or_default (Some x) dflt = dflt.
Proof. intros H; simpl; rewrite H; reflexivity. Qed.

Lemma or_default_is_truthy (v : option number) (dflt : number) :
  truthy dflt = true -> truthy (or_default v dflt) = true.
Proof.
  intros Hd; destruct v as [x|]; simpl; [|assumption].
  destruct (truthy x) eqn:Hx; assumption.
Qed.

Lemma truthy_false_iff (x : number) :
  truthy x = false <-> x = NaN \/ x = Num 0.
Proof.
  destruct x as [|s|u]; simpl.
  - split; auto.
  - split; [discriminate | intros [H|H]; discriminate].
  - unfold Reqb; destruct (Req_dec_T u 0) as [->|Hu]; simpl.
    + split; auto.
    + split; [discriminate | intros [H|H]; [discriminate | congruence]].
Qed.

(** ** The constructor *)

(** C10: a value 0 or NaN (the falsy numbers) supplied for n, a, b, c, beta
    or EA is replaced by the documented default: n = 6, a = 1, b = 2, c = 3,
    beta = 1.5, EA = 1. *)
Theorem constructor_falsy_default (p : params) :
  (forall x, params_n p = Some x -> x = Num 0 \/ x = NaN ->
             n (constructor p) = Num 6) /\
  (forall x, params_a p = Some x -> x = Num 0 \/ x = NaN ->
             a (constructor p) = Num 1) /\
  (forall x, params_b p = Some x -> x = Num 0 \/ x = NaN ->
             b (constructor p) = Num 2) /\
  (forall x, params_c p = Some x -> x = Num 0 \/ x = NaN ->
             c (constructor p) = Num 3) /\
  (forall x, params_beta p = Some x -> x = Num 0 \/ x = NaN ->
             beta (constructor p) = Num (3 / 2)) /\
  (forall x, params_EA p = Some x -> x = Num 0 \/ x = NaN ->
             EA (constructor p) = Num 1).
Proof.
  repeat split; intros x Hx Hf; simpl; rewrite Hx;
    apply or_default_falsy, truthy_false_iff; tauto.
Qed.

Lemma jgt_not_jle (x y : number) : jgt x y = true -> jle x y = false.
Proof.
  unfold jgt; destruct x as [|[|]|u], y as [|[|]|v]; simpl;
    try discriminate; try reflexivity.
  rewrite Rltb_spec; intros H; apply Rleb_false; exact H.
Qed.

(** ** The cache of stable states *)

Lemma findStableStates_coherent (m : KreslingModel) :
  cache_coherent m -> fst (findStableStates m) = computeStableStates m.
Proof.
  unfold cache_coherent, findStableStates.
  intros [H|H]; rewrite H; reflexivity.
Qed.

Lemma findStableStates_fills (m : KreslingModel) :
  cache_coherent m ->
  _stableStates (snd (findStableStates m)) = Some (computeStableStates m).
Proof.
  unfold cache_coherent, findStableStates.
  intros [H|H]; rewrite H; simpl; [reflexivity | exact H].
Qed.

Lemma setModelParameter_cleared (param : param_name) (value : number)
  (m : KreslingModel) :
  geometric param = true ->
  _stableStates (setModelParameter param value m) = None.
Proof. intros H; unfold setModelParameter; rewrite H; reflexivity. Qed.

Lemma reachable_updateModelParameter (param : param_name) (value : number)
  (m : KreslingModel) :
  reachable m -> reachable (updateModelParameter param value m).
Proof. intros Hm; apply reach_find, reach_set, Hm. Qed.

Lemma reachable_coherent (m : KreslingModel) :
  reachable m -> cache_coherent m.
Proof.
  induction 1 as [p | param value m Hm IH | m Hm IH].
  - left; reflexivity.
  - destruct (geometric param) eqn:Hg.
    + left; apply setModelParameter_cleared; exact Hg.
    + destruct param; try discriminate Hg.
      unfold setModelParameter; rewrite Hg.
      destruct IH as [IH|IH]; [left | right]; simpl; exact IH.
  - right. unfold findStableStates.
    destruct IH as [IH|IH]; rewrite IH; simpl; [reflexivity | exact IH].
Qed.

(** ** Stable states *)

Open Scope js_scope.

(** C1: on every instance the program can hold, [findStableStates()] returns,
    when |lambda| <= 1, state1 = (h1, phi1) with phi1 = asin(lambda) - pi/n
    and state2 = (h2, phi2) with phi2 = pi - asin(lambda) - pi/n, each height
    being sqrt(max(0, c^2 - r^2 - R^2 + 2 r R cos(phi))); when |lambda| > 1
    both states are absent.  Here
    lambda = ((b - 2 c cos(beta)) / a) sin(pi/n). *)
Theorem findStableStates_closed_form (m : KreslingModel) :
  reachable m ->
  let lam := ((b m - 2 * c m * Math_cos (beta m)) / a m)
             * Math_sin (Math_PI / n m) in
  let phi1 := Math_asin lam - Math_PI / n m in
  let phi2 := Math_PI - Math_asin lam - Math_PI / n m in
  let height (ph : number) :=
    Math_sqrt (Math_max 0 (c m ** 2 - r m ** 2 - R_ m ** 2
                           + 2 * r m * R_ m * Math_cos ph)) in
  let ss := fst (findStableStates m) in
  ((Math_abs lam <= 1) = true ->
     state1 ss = Some {| h := height phi1; phi := phi1 |} /\
     state2 ss = Some {| h := height phi2; phi := phi2 |}) /\
  ((Math_abs lam > 1) = true ->
     state1 ss = None /\ state2 ss = None).
Proof.
  intros Hr; cbv zeta.
  rewrite (findStableStates_coherent m (reachable_coherent m Hr)).
  unfold computeStableStates, lambda; cbv zeta.
  split; intros H.
  - rewrite H; simpl; split; reflexivity.
  - rewrite (jgt_not_jle _ _ H); simpl; split; reflexivity.
Qed.

(** C9: [findStableStates()] returns both states or neither, and
    [isBistable()] is true exactly when |lambda| <= 1. *)
Theorem both_or_neither (m : KreslingModel) :
  reachable m ->
  let ss := fst (findStableStates m) in
  isSome (state1 ss) = isSome (state2 ss) /\
  fst (isBistable m) = (Math_abs (lambda m) <= 1).
Proof.
  intros Hr; cbv zeta.
  unfold isBistable.
  destruct (findStableStates m) as [ss m'] eqn:Hf.
  assert (Hss : ss = computeStableStates m).
  { rewrite <- (findStableStates_coherent m (reachable_coherent m Hr)).
    rewrite Hf; reflexivity. }
  subst ss; simpl.
  destruct (Math_abs (lambda m) <= 1); simpl; split; reflexivity.
Qed.

(** C3: when the cache holds a pair, [findStableStates()] returns that pair
    as it is, recomputing nothing, and leaves the instance as it is; a second
    [findStableStates()] with no parameter change in between returns the pair
    of the first and leaves the instance as it is; and a parameter update of
    a, b, c, beta or n empties the cache before the next read, so that the
    next [findStableStates()] gives the stable states of the updated fields,
    in which d, r and R are those of the new parameters. *)
Theorem cache_correct (m : KreslingModel) :
  (forall cached, _stableStates m = Some cached ->
                  findStableStates m = (cached, m)) /\
  (forall ss m1, findStableStates m = (ss, m1) ->
                 findStableStates m1 = (ss, m1)) /\
  (forall param value, geometric param = true ->
     let m' := setModelParameter param value m in
     get m' param = value /\
     d m' = Math_sqrt (b m' ** 2 + c m' ** 2 - 2 * b m' * c m' * Math_cos (beta m')) /\
     r m' = a m' / (2 * Math_sin (Math_PI / n m')) /\
     R_ m' = b m' / (2 * Math_sin (Math_PI / n m')) /\
     _stableStates m' = None /\
     fst (findStableStates m') = computeStableStates m' /\
     _stableStates (updateModelParameter param value m)
       = Some (computeStableStates m')).
Proof.
  split; [| split].
  - intros cached Hc. unfold findStableStates; rewrite Hc; reflexivity.
  - intros ss m1 Hf. unfold findStableStates in Hf.
    destruct (_stableStates m) as [cached|] eqn:Hc.
    + inversion Hf; subst. unfold findStableStates; rewrite Hc; reflexivity.
    + inversion Hf; subst. reflexivity.
  - intros param value Hg; cbv zeta.
    assert (Hnone := setModelParameter_cleared param value m Hg).
    assert (Hcoh : cache_coherent (setModelParameter param value m))
      by (left; exact Hnone).
    repeat split.
    + destruct param; try discriminate Hg; reflexivity.
    + unfold setModelParameter; rewrite Hg; reflexivity.
    + unfold setModelParameter; rewrite Hg; reflexivity.
    + unfold setModelParameter; rewrite Hg; reflexivity.
    + exact Hnone.
    + apply findStableStates_coherent; exact Hcoh.
    + unfold updateModelParameter, updateModel.
      apply findStableStates_fills; exact Hcoh.
Qed.

(** ** Phase classification *)

(** C2: [calculatePhase()] returns the label that the specification's rule
    gives, and it is one of the three labels. *)
Theorem calculatePhase_spec (m : KreslingModel) :
  fst (calculatePhase m) = spec_phase m (fst (findStableStates m)) /\
  (fst (calculatePhase m) = "monostable"%string \/
   fst (calculatePhase m) = "bistable-zero-energy"%string \/
   fst (calculatePhase m) = "bistable-nonzero-energy"%string).
Proof.
  unfold calculatePhase, spec_phase.
  assert (Hsame : forall ss m', findStableStates m = (ss, m') ->
            lambda m' = lambda m /\ n m' = n m /\ r m' = r m /\
            R_ m' = R_ m /\ c m' = c m).
  { intros ss m' Hf. unfold findStableStates in Hf.
    destruct (_stableStates m); inversion Hf; subst; repeat split; reflexivity. }
  destruct (findStableStates m) as [ss m'] eqn:Hf.
  destruct (Hsame ss m' eq_refl) as (Hl & Hn & Hr & HR & Hc).
  rewrite Hl, Hn, Hr, HR, Hc; clear Hsame.
  cbv zeta; cbn [fst].
  destruct (state1 ss) as [s1|], (state2 ss) as [s2|];
    cbn [fst isSome negb orb];
    try (split; [reflexivity | left; reflexivity]).
  destruct (Math_abs (lambda m) > 1); cbn [fst];
    [split; [reflexivity | left; reflexivity] |].
  destruct (c m > _); cbn [fst orb];
    [split; [reflexivity | right; left; reflexivity] |].
  destruct ((phi s1 <= _) && _); cbn [fst]; split; auto.
Qed.

Close Scope js_scope.

(** ** Arithmetic on finite numbers *)

Lemma jdiv_Num (u v : R) : v <> 0 -> jdiv (Num u) (Num v) = Num (u / v).
Proof. intros H; unfold jdiv; rewrite (Reqb_false v 0 H); reflexivity. Qed.

Lemma Math_sqrt_Num (u : R) : 0 <= u -> Math_sqrt (Num u) = Num (sqrt u).
Proof. intros H; unfold Math_sqrt; rewrite (Rltb_false u 0 H); reflexivity. Qed.

Lemma radicand_nonneg (h vr vR x : R) :
  0 <= h ^ 2 + vr ^ 2 + vR ^ 2 - 2 * vr * vR * cos x.
Proof.
  pose proof (COS_bound x) as [Hl Hu].
  pose proof (pow2_ge_0 (vr - vR)) as H1.
  pose proof (pow2_ge_0 (vr + vR)) as H2.
  pose proof (pow2_ge_0 h) as H3.
  destruct (Rle_dec 0 (vr * vR)); nra.
Qed.

Lemma jadd_Num (u v : R) : jadd (Num u) (Num v) = Num (u + v).
Proof. reflexivity. Qed.

Lemma jsub_Num (u v : R) : jsub (Num u) (Num v) = Num (u - v).
Proof. reflexivity. Qed.

Lemma jmul_Num (u v : R) : jmul (Num u) (Num v) = Num (u * v).
Proof. reflexivity. Qed.

Lemma jpow_Num (u : R) (k : nat) : jpow (Num u) (S k) = Num (u ^ S k).
Proof. reflexivity. Qed.

Lemma Math_cos_Num (u : R) : Math_cos (Num u) = Num (cos u).
Proof. reflexivity. Qed.

Lemma Math_sin_Num (u : R) : Math_sin (Num u) = Num (sin u).
Proof. reflexivity. Qed.

Lemma Math_min_Num (u v : R) : Math_min (Num u) (Num v) = Num (Rmin u v).
Proof. reflexivity. Qed.

Lemma Math_max_Num (u v : R) : Math_max (Num u) (Num v) = Num (Rmax u v).
Proof. reflexivity. Qed.

Lemma Math_abs_Num (u : R) : Math_abs (Num u) = Num (Rabs u).
Proof. reflexivity. Qed.

Create Rewrite HintDb js_num.
#[local] Hint Rewrite jadd_Num jsub_Num jmul_Num jpow_Num Math_cos_Num
  Math_sin_Num Math_min_Num Math_max_Num Math_abs_Num : js_num.

(** Evaluate the operations whose arguments are finite. *)
Ltac js_arith := unfold Math_PI; autorewrite with js_num.

(** ** Crease lengths and energy *)

Section FiniteFields.

Variable m : KreslingModel.
Variables vn vc vd vr vR vkm vkv : R.
Hypothesis Hfields : energy_fields m vn vc vd vr vR vkm vkv.
Hypothesis Hn : vn <> 0.

Lemma computeCreaseLength_real (h phi : R) :
  computeCreaseLength m (Num h) (Num phi)
  = (Num (real_cTilde vr vR h phi), Num (real_dTilde vn vr vR h phi)).
Proof.
  destruct Hfields as (En & Ec & Ed & Er & ER & Ekm & Ekv).
  unfold computeCreaseLength; cbv zeta.
  rewrite En, Er, ER. js_arith.
  rewrite (jdiv_Num _ _ Hn). js_arith.
  rewrite !Math_sqrt_Num by apply radicand_nonneg.
  reflexivity.
Qed.

Lemma computeEnergy_real (h phi : R) :
  computeEnergy m (Num h) (Num phi)
  = Num (real_energy vn vkm vkv vc vd
           (real_cTilde vr vR h phi) (real_dTilde vn vr vR h phi)).
Proof.
  unfold computeEnergy. rewrite computeCreaseLength_real.
  destruct Hfields as (En & Ec & Ed & Er & ER & Ekm & Ekv).
  cbv zeta. rewrite En, Ec, Ed, Ekm, Ekv. js_arith.
  rewrite !jdiv_Num by lra. js_arith.
  reflexivity.
Qed.

End FiniteFields.

Lemma INR_100 : INR 100 = 100.
Proof. rewrite INR_IZR_INZ; reflexivity. Qed.

(** ** Parameter sets within the documented constraints *)

Section ValidParameters.

Variable k : nat.
Variables va vb vc vbeta vEA : R.
Hypothesis Hk : (3 <= k)%nat.
Hypothesis Ha : 0 < va.
Hypothesis Hb : 0 < vb.
Hypothesis Hc : 0 < vc.
Hypothesis Hbeta : 0 < vbeta < PI.
Hypothesis HEA : 0 < vEA.

Lemma INR_k_ge_3 : 3 <= INR k.
Proof.
  pose proof (le_INR 3 k Hk) as H.
  rewrite (INR_IZR_INZ 3) in H. exact H.
Qed.

Lemma sin_PI_k_pos : 0 < sin (PI / INR k).
Proof.
  pose proof INR_k_ge_3 as H3. pose proof PI_RGT_0 as Hpi.
  assert (Hinv : 0 < / INR k) by (apply Rinv_0_lt_compat; lra).
  assert (Hinv1 : / INR k < 1).
  { rewrite <- Rinv_1. apply Rinv_lt_contravar; lra. }
  apply sin_gt_0; unfold Rdiv; nra.
Qed.

Lemma d_radicand_pos : 0 < vb ^ 2 + vc ^ 2 - 2 * vb * vc * cos vbeta.
Proof.
  assert (Hcos : cos vbeta < 1).
  { rewrite <- cos_0. apply cos_decreasing_1; lra. }
  pose proof (pow2_ge_0 (vb - vc)) as Hsq.
  assert (Hbc : 0 < vb * vc) by (apply Rmult_lt_0_compat; assumption).
  assert (Hpos : 0 < vb * vc * (1 - cos vbeta))
    by (apply Rmult_lt_0_compat; lra).
  nra.
Qed.

Lemma real_d_pos : 0 < real_d vb vc vbeta.
Proof. unfold real_d; apply sqrt_lt_R0; exact d_radicand_pos. Qed.

Lemma constructor_valid :
  constructor (valid_params k va vb vc vbeta vEA)
  = {| n := Num (INR k); a := Num va; b := Num vb; c := Num vc;
       beta := Num vbeta;
       d := Num (real_d vb vc vbeta);
       r := Num (real_radius va (INR k));
       R_ := Num (real_radius vb (INR k));
       EA := Num vEA;
       km := Num (vEA / vc);
       kv := Num (vEA / real_d vb vc vbeta);
       _stableStates := None |}.
Proof.
  pose proof INR_k_ge_3 as H3. pose proof sin_PI_k_pos as Hsin.
  pose proof real_d_pos as Hd. pose proof d_radicand_pos as Hrad.
  unfold constructor, valid_params.
  cbn [params_n params_a params_b params_c params_beta params_EA].
  rewrite !or_default_truthy by (apply truthy_Num; lra).
  cbv zeta. js_arith.
  rewrite (Math_sqrt_Num _ (Rlt_le _ _ Hrad)).
  rewrite (jdiv_Num PI (INR k)) by lra. js_arith.
  rewrite !jdiv_Num by (unfold real_d in Hd; lra).
  reflexivity.
Qed.

End ValidParameters.

(** ** Stiffness and energy *)

Lemma recalculated_stiffness (m : KreslingModel) :
  recalculated m ->
  km m = jdiv (EA m) (c m) /\ kv m = jdiv (EA m) (d m).
Proof.
  induction 1 as [p | param value m Hg | m Hm IH].
  - split; reflexivity.
  - unfold setModelParameter; rewrite Hg; split; reflexivity.
  - unfold findStableStates; destruct (_stableStates m); exact IH.
Qed.

(** C5: [computeCreaseLength(h, phi)] returns
    cTilde = sqrt(h^2 + r^2 + R^2 - 2 r R cos(phi)) and
    dTilde = sqrt(h^2 + r^2 + R^2 - 2 r R cos(phi + 2 pi / n)), and
    [computeEnergy(h, phi)] returns
    n km (cTilde - c)^2 / 2 + n kv (dTilde - d)^2 / 2 with km = EA/c and
    kv = EA/d, on every instance whose derived quantities were computed
    after the last assignment to a parameter. *)
Theorem computeEnergy_formula (m : KreslingModel) (h phi : number) :
  recalculated m ->
  computeCreaseLength m h phi = (spec_cTilde m h phi, spec_dTilde m h phi) /\
  computeEnergy m h phi = spec_energy m h phi.
Proof.
  intros Hm. destruct (recalculated_stiffness m Hm) as [Hkm Hkv].
  split; [reflexivity|].
  unfold computeEnergy, spec_energy, computeCreaseLength, spec_cTilde,
    spec_dTilde; cbv zeta.
  rewrite Hkm, Hkv. reflexivity.
Qed.

Lemma EA_update_fields (m : KreslingModel) (value : number) :
  let m' := updateModelParameter P_EA value m in
  n m' = n m /\ c m' = c m /\ d m' = d m /\ r m' = r m /\ R_ m' = R_ m /\
  km m' = km m /\ kv m' = kv m /\ EA m' = value.
Proof.
  cbv zeta.
  unfold updateModelParameter, updateModel, setModelParameter.
  replace (geometric P_EA) with false by reflexivity.
  unfold findStableStates. cbn [assign _stableStates].
  destruct (_stableStates m); cbn [snd]; repeat split; reflexivity.
Qed.

Lemma computeEnergy_EA_update (m : KreslingModel) (value h phi : number) :
  computeEnergy (updateModelParameter P_EA value m) h phi
  = computeEnergy m h phi.
Proof.
  destruct (EA_update_fields m value) as (Hn & Hc & Hd & Hr & HR & Hkm & Hkv & _).
  unfold computeEnergy, computeCreaseLength; cbv zeta.
  rewrite Hn, Hc, Hd, Hr, HR, Hkm, Hkv. reflexivity.
Qed.

(** C7 (as amended): an assignment to EA through the parameter update sets
    the field EA and nothing else that the energy reads: km and kv stay as
    they were, and [computeEnergy(h, phi)] returns what it returned before
    the assignment. *)
Theorem EA_update_keeps_energy (m : KreslingModel) (value h phi : number) :
  let m' := updateModelParameter P_EA value m in
  EA m' = value /\ km m' = km m /\ kv m' = kv m /\
  computeEnergy m' h phi = computeEnergy m h phi.
Proof.
  cbv zeta.
  destruct (EA_update_fields m value) as (_ & _ & _ & _ & _ & Hkm & Hkv & HEA).
  repeat split; try assumption.
  apply computeEnergy_EA_update.
Qed.

Lemma spec_energy_real (m : KreslingModel) (vn vc vd vr vR vEA h phi : R) :
  n m = Num vn -> c m = Num vc -> d m = Num vd -> r m = Num vr ->
  R_ m = Num vR -> EA m = Num vEA ->
  vn <> 0 -> vc <> 0 -> vd <> 0 ->
  spec_energy m (Num h) (Num phi)
  = Num (real_energy vn (vEA / vc) (vEA / vd) vc vd
           (real_cTilde vr vR h phi) (real_dTilde vn vr vR h phi)).
Proof.
  intros En Ec Ed Er ER EEA Hn Hc Hd.
  unfold spec_energy, spec_cTilde, spec_dTilde; cbv zeta.
  rewrite En, Ec, Ed, Er, ER, EEA. js_arith.
  rewrite (jdiv_Num _ vn Hn), (jdiv_Num _ vc Hc), (jdiv_Num _ vd Hd).
  js_arith.
  rewrite !Math_sqrt_Num by apply radicand_nonneg.
  js_arith. rewrite !jdiv_Num by lra. js_arith.
  reflexivity.
Qed.

(** ** Concrete units *)

Lemma INR_6 : INR 6 = 6.
Proof. rewrite INR_IZR_INZ; reflexivity. Qed.

Lemma sin_PI_INR_6 : sin (PI / INR 6) = 1 / 2.
Proof. rewrite INR_6; exact sin_PI6. Qed.

Lemma half_PI_in_range : 0 < PI / 2 < PI.
Proof. pose proof PI_RGT_0; lra. Qed.

Lemma default_beta_in_range : 0 < 3 / 2 < PI.
Proof. pose proof PI2_3_2; pose proof PI_RGT_0; lra. Qed.

Lemma counter_unit :
  constructor (valid_params 6 3 3 4 (PI / 2) 1)
  = {| n := Num 6; a := Num 3; b := Num 3; c := Num 4; beta := Num (PI / 2);
       d := Num 5; r := Num 3; R_ := Num 3; EA := Num 1;
       km := Num (1 / 4); kv := Num (1 / 5); _stableStates := None |}.
Proof.
  rewrite (constructor_valid 6 3 3 4 (PI / 2) 1); try lra; try lia;
    try exact half_PI_in_range.
  assert (Hd : real_d 3 4 (PI / 2) = 5).
  { unfold real_d. rewrite cos_PI2.
    replace (3 ^ 2 + 4 ^ 2 - 2 * 3 * 4 * 0) with (5 ^ 2) by field.
    apply sqrt_pow2; lra. }
  assert (Hr : real_radius 3 (INR 6) = 3).
  { unfold real_radius. rewrite sin_PI_INR_6. field. }
  rewrite Hd, Hr, INR_6. reflexivity.
Qed.

Lemma counter_cTilde : real_cTilde 3 3 0 0 = 0.
Proof.
  unfold real_cTilde. rewrite cos_0.
  replace (0 ^ 2 + 3 ^ 2 + 3 ^ 2 - 2 * 3 * 3 * 1) with 0 by field.
  exact sqrt_0.
Qed.

Lemma counter_dTilde : real_dTilde 6 3 3 0 0 = 3.
Proof.
  unfold real_dTilde.
  replace (0 + 2 * PI / 6) with (PI / 3) by field. rewrite cos_PI3.
  replace (0 ^ 2 + 3 ^ 2 + 3 ^ 2 - 2 * 3 * 3 * (1 / 2)) with (3 ^ 2) by field.
  apply sqrt_pow2; lra.
Qed.

(** C7, counterexample: on the unit n = 6, a = 3, b = 3, c = 4,
    beta = pi/2, EA = 1, after EA is set to 2, [computeEnergy(0, 0)] returns
    72/5, the energy for EA = 1, and not 144/5, the energy with the
    stiffnesses EA/c and EA/d of the current EA. *)
Lemma EA_update_not_reflected :
  let m0 := constructor (valid_params 6 3 3 4 (PI / 2) 1) in
  let m1 := updateModelParameter P_EA (Num 2) m0 in
  EA m1 = Num 2 /\
  computeEnergy m1 (Num 0) (Num 0) = Num (72 / 5) /\
  spec_energy m1 (Num 0) (Num 0) = Num (144 / 5) /\
  computeEnergy m1 (Num 0) (Num 0) <> spec_energy m1 (Num 0) (Num 0).
Proof.
  cbv zeta. rewrite counter_unit.
  set (m0 := {| n := Num 6; a := Num 3; b := Num 3; c := Num 4;
                beta := Num (PI / 2); d := Num 5; r := Num 3; R_ := Num 3;
                EA := Num 1; km := Num (1 / 4); kv := Num (1 / 5);
                _stableStates := None |}).
  destruct (EA_update_fields m0 (Num 2))
    as (En & Ec & Ed & Er & ER & Ekm & Ekv & EEA).
  assert (Hactual : computeEnergy (updateModelParameter P_EA (Num 2) m0)
                      (Num 0) (Num 0) = Num (72 / 5)).
  { rewrite computeEnergy_EA_update.
    rewrite (computeEnergy_real m0 6 4 5 3 3 (1 / 4) (1 / 5))
      by (repeat split; reflexivity || lra).
    rewrite counter_cTilde, counter_dTilde.
    unfold real_energy. f_equal. field. }
  assert (Hspec : spec_energy (updateModelParameter P_EA (Num 2) m0)
                    (Num 0) (Num 0) = Num (144 / 5)).
  { rewrite (spec_energy_real _ 6 4 5 3 3 2 0 0) by (assumption || lra).
    rewrite counter_cTilde, counter_dTilde.
    unfold real_energy. f_equal. field. }
  split; [exact EEA|]. split; [exact Hactual|]. split; [exact Hspec|].
  rewrite Hactual, Hspec. intros Heq; injection Heq as Heq; lra.
Qed.

(** ** Degenerate parameters *)

Lemma truthy_zero : truthy (Num 0) = false.
Proof. simpl; rewrite Reqb_true by reflexivity; reflexivity. Qed.

Lemma or_default_zero (dflt : number) : or_default (Some (Num 0)) dflt = dflt.
Proof. apply or_default_falsy, truthy_zero. Qed.

Lemma constructor_zero_a :
  constructor
    {| params_n := None; params_a := Some (Num 0); params_b := None;
       params_c := None; params_beta := None; params_EA := None |}
  = constructor (valid_params 6 1 2 3 (3 / 2) 1).
Proof.
  unfold constructor, valid_params.
  cbn [params_n params_a params_b params_c params_beta params_EA].
  rewrite INR_6, or_default_zero.
  rewrite !or_default_truthy by (apply truthy_Num; lra).
  reflexivity.
Qed.

(** C8, counterexample: the unit constructed with the zero edge length
    a = 0 (all else omitted) is the default unit: a = 1, r = 1, R = 2,
    km = 1/3, and d and kv are finite. *)
Lemma zero_edge_gives_finite_unit :
  let m := constructor
             {| params_n := None; params_a := Some (Num 0); params_b := None;
                params_c := None; params_beta := None; params_EA := None |} in
  m = constructor no_params /\
  a m = Num 1 /\ r m = Num 1 /\ R_ m = Num 2 /\ km m = Num (1 / 3) /\
  finite (d m) = true /\ finite (kv m) = true.
Proof.
  cbv zeta. split.
  - unfold constructor, no_params.
    cbn [params_n params_a params_b params_c params_beta params_EA].
    rewrite or_default_zero. reflexivity.
  - rewrite constructor_zero_a.
    rewrite (constructor_valid 6 1 2 3 (3 / 2) 1); try lra; try lia;
      try exact default_beta_in_range.
    cbn [a r R_ km d kv finite].
    unfold real_radius. rewrite sin_PI_INR_6.
    repeat split; try reflexivity; f_equal; field.
Qed.

(** C8 (as amended): the constructor accepts every argument, and a zero
    supplied for n, a, b or c does not reach the derived quantities: the
    unit is the one constructed with that parameter omitted, and n, a, b, c
    of a constructed unit are never zero or NaN. *)
Theorem zero_parameter_is_defaulted (pn pa pb pc pbeta pEA : option number) :
  let new_with vn va vb vc :=
    constructor
      {| params_n := vn; params_a := va; params_b := vb; params_c := vc;
         params_beta := pbeta; params_EA := pEA |} in
  new_with (Some (Num 0)) pa pb pc = new_with None pa pb pc /\
  new_with pn (Some (Num 0)) pb pc = new_with pn None pb pc /\
  new_with pn pa (Some (Num 0)) pc = new_with pn pa None pc /\
  new_with pn pa pb (Some (Num 0)) = new_with pn pa pb None /\
  truthy (n (new_with pn pa pb pc)) = true /\
  truthy (a (new_with pn pa pb pc)) = true /\
  truthy (b (new_with pn pa pb pc)) = true /\
  truthy (c (new_with pn pa pb pc)) = true.
Proof.
  cbv zeta. unfold constructor.
  cbn [params_n params_a params_b params_c params_beta params_EA n a b c].
  rewrite !or_default_zero.
  repeat split; try reflexivity;
    apply or_default_is_truthy, truthy_Num; lra.
Qed.

(** ** A worked unit: n = 6, a = b = c = 1, beta = pi/2, EA = 1 *)

Lemma asin_half : asin (1 / 2) = PI / 6.
Proof.
  rewrite <- sin_PI6. apply asin_sin.
  pose proof PI_RGT_0; lra.
Qed.

Lemma example_unit :
  constructor (valid_params 6 1 1 1 (PI / 2) 1)
  = {| n := Num 6; a := Num 1; b := Num 1; c := Num 1; beta := Num (PI / 2);
       d := Num (sqrt 2); r := Num 1; R_ := Num 1; EA := Num 1;
       km := Num 1; kv := Num (1 / sqrt 2); _stableStates := None |}.
Proof.
  rewrite (constructor_valid 6 1 1 1 (PI / 2) 1); try lra; try lia;
    try exact half_PI_in_range.
  assert (Hd : real_d 1 1 (PI / 2) = sqrt 2).
  { unfold real_d. rewrite cos_PI2. f_equal. field. }
  assert (Hr : real_radius 1 (INR 6) = 1).
  { unfold real_radius. rewrite sin_PI_INR_6. field. }
  rewrite Hd, Hr, INR_6.
  replace (1 / 1) with 1 by field.
  reflexivity.
Qed.

(** Its stable states are (h, phi) = (1, 0) and (0, 2 pi / 3): lambda = 1/2,
    and the radicand of the second height, -2, is clamped to 0. *)
Example example_stable_states :
  fst (findStableStates (constructor (valid_params 6 1 1 1 (PI / 2) 1)))
  = {| state1 := Some {| h := Num 1; phi := Num 0 |};
       state2 := Some {| h := Num 0; phi := Num (2 * (PI / 3)) |} |}.
Proof.
  rewrite example_unit.
  unfold findStableStates; cbn [_stableStates fst].
  unfold computeStableStates, lambda; cbn [n a b c beta r R_]; cbv zeta.
  js_arith. rewrite !jdiv_Num by lra. js_arith.
  rewrite cos_PI2, sin_PI6.
  replace ((1 - 2 * 1 * 0) / 1 * (1 / 2)) with (1 / 2) by field.
  assert (Habs : Rleb (Rabs (1 / 2)) 1 = true).
  { apply Rleb_true. rewrite Rabs_pos_eq; lra. }
  cbn [jle]. rewrite Habs.
  unfold Math_asin. rewrite Habs, asin_half. js_arith.
  replace (PI / 6 - PI / 6) with 0 by field.
  replace (PI - PI / 6 - PI / 6) with (2 * (PI / 3)) by field.
  rewrite cos_0, cos_2PI3.
  replace (1 ^ 2 - 1 ^ 2 - 1 ^ 2 + 2 * 1 * 1 * 1) with 1 by field.
  replace (1 ^ 2 - 1 ^ 2 - 1 ^ 2 + 2 * 1 * 1 * (-1 / 2)) with (-2) by field.
  rewrite (Rmax_right 0 1) by lra. rewrite (Rmax_left 0 (-2)) by lra.
  rewrite !Math_sqrt_Num by lra.
  rewrite sqrt_1, sqrt_0. reflexivity.
Qed.

(** ** The statements at concrete units *)

(** The unit n = 6, a = b = c = 1, beta = pi/2, EA = 1 has lambda = 1/2. *)
Lemma lambda_example :
  jle (Math_abs (lambda (constructor (valid_params 6 1 1 1 (PI / 2) 1))))
      (Num 1) = true.
Proof.
  rewrite (constructor_valid 6 1 1 1 (PI / 2) 1); try lra; try lia;
    try exact half_PI_in_range.
  unfold lambda. cbn [n a b c beta]. js_arith.
  rewrite (jdiv_Num PI (INR 6)) by (rewrite INR_6; lra).
  rewrite jdiv_Num by lra. js_arith.
  cbn [jle]. apply Rleb_true.
  rewrite cos_PI2, sin_PI_INR_6.
  replace ((1 - 2 * 1 * 0) / 1 * (1 / 2)) with (1 / 2) by field.
  rewrite Rabs_pos_eq; lra.
Qed.

(** The unit n = 6, a = 1, b = 4, c = 1, beta = pi/2, EA = 1 has lambda = 2. *)
Lemma lambda_example_large :
  jgt (Math_abs (lambda (constructor (valid_params 6 1 4 1 (PI / 2) 1))))
      (Num 1) = true.
Proof.
  rewrite (constructor_valid 6 1 4 1 (PI / 2) 1); try lra; try lia;
    try exact half_PI_in_range.
  unfold lambda. cbn [n a b c beta]. js_arith.
  rewrite (jdiv_Num PI (INR 6)) by (rewrite INR_6; lra).
  rewrite jdiv_Num by lra. js_arith.
  unfold jgt; cbn [jlt]. apply Rltb_true.
  rewrite cos_PI2, sin_PI_INR_6.
  replace ((4 - 2 * 1 * 0) / 1 * (1 / 2)) with 2 by field.
  rewrite Rabs_pos_eq; lra.
Qed.

Lemma findStableStates_closed_form_witness :
  let m := constructor (valid_params 6 1 1 1 (PI / 2) 1) in
  let m2 := constructor (valid_params 6 1 4 1 (PI / 2) 1) in
  (isSome (state1 (fst (findStableStates m))) = true /\
   isSome (state2 (fst (findStableStates m))) = true) /\
  (state1 (fst (findStableStates m2)) = None /\
   state2 (fst (findStableStates m2)) = None).
Proof.
  cbv zeta. split.
  - destruct (findStableStates_closed_form _
                (reach_new (valid_params 6 1 1 1 (PI / 2) 1))) as [Hle _].
    destruct (Hle lambda_example) as [H1 H2].
    rewrite H1, H2; split; reflexivity.
  - destruct (findStableStates_closed_form _
                (reach_new (valid_params 6 1 4 1 (PI / 2) 1))) as [_ Hgt].
    exact (Hgt lambda_example_large).
Defined.

Lemma both_or_neither_witness :
  fst (isBistable (constructor (valid_params 6 1 1 1 (PI / 2) 1))) = true.
Proof.
  destruct (both_or_neither _ (reach_new (valid_params 6 1 1 1 (PI / 2) 1)))
    as [_ Hbi].
  rewrite Hbi. exact lambda_example.
Defined.

(** After the stable states of the worked unit are cached, b is set to 4:
    lambda becomes 2 and the recalculated unit has R = 4. *)
Lemma example_update_b :
  let m1 := snd (findStableStates (constructor (valid_params 6 1 1 1 (PI / 2) 1))) in
  let m' := setModelParameter P_b (Num 4) m1 in
  _stableStates m1 <> None /\
  R_ m' = Num 4 /\
  computeStableStates m' = {| state1 := None; state2 := None |}.
Proof.
  cbv zeta. rewrite example_unit.
  unfold findStableStates; cbn [_stableStates snd].
  split; [discriminate|].
  unfold setModelParameter. replace (geometric P_b) with true by reflexivity.
  unfold recalculate, assign, set_stableStates.
  cbn [n a b c beta d r R_ EA km kv name_of String.eqb Ascii.eqb Bool.eqb].
  js_arith. rewrite (jdiv_Num PI 6) by lra. js_arith.
  rewrite sin_PI6, cos_PI2.
  rewrite !jdiv_Num by lra.
  replace (4 / (2 * (1 / 2))) with 4 by field.
  replace (1 / (2 * (1 / 2))) with 1 by field.
  split; [reflexivity|].
  unfold computeStableStates, lambda; cbn [n a b c beta r R_]; cbv zeta.
  js_arith. rewrite !jdiv_Num by lra. js_arith.
  rewrite cos_PI2, sin_PI6.
  replace ((4 - 2 * 1 * 0) / 1 * (1 / 2)) with 2 by field.
  cbn [jle]. rewrite Rleb_false by (rewrite Rabs_pos_eq; lra).
  reflexivity.
Qed.

Lemma cache_correct_witness :
  let m := constructor (valid_params 6 1 1 1 (PI / 2) 1) in
  let none := {| state1 := None; state2 := None |} in
  let held := set_stableStates m (Some none) in
  let m1 := snd (findStableStates m) in
  let m' := setModelParameter P_b (Num 4) m1 in
  findStableStates held = (none, held) /\
  findStableStates m1 = (fst (findStableStates m), m1) /\
  b m' = Num 4 /\ _stableStates m' = None /\
  fst (findStableStates m') = {| state1 := None; state2 := None |}.
Proof.
  cbv zeta.
  split; [| split].
  - destruct (cache_correct
                (set_stableStates (constructor (valid_params 6 1 1 1 (PI / 2) 1))
                   (Some {| state1 := None; state2 := None |})))
      as [Hhit _].
    apply Hhit. reflexivity.
  - destruct (cache_correct (constructor (valid_params 6 1 1 1 (PI / 2) 1)))
      as (_ & Htwice & _).
    apply Htwice. destruct (findStableStates _); reflexivity.
  - destruct (cache_correct
                (snd (findStableStates
                        (constructor (valid_params 6 1 1 1 (PI / 2) 1)))))
      as (_ & _ & Hupd).
    destruct (Hupd P_b (Num 4) eq_refl)
      as (Hget & _ & _ & _ & Hnone & Hfind & _).
    split; [exact Hget | split; [exact Hnone |]].
    rewrite Hfind. exact (proj2 (proj2 example_update_b)).
Defined.

Lemma computeEnergy_formula_witness :
  computeEnergy (constructor no_params) (Num 2) (Num 0)
  = spec_energy (constructor no_params) (Num 2) (Num 0).
Proof.
  exact (proj2 (computeEnergy_formula _ (Num 2) (Num 0) (recalc_new no_params))).
Defined.

Lemma constructor_falsy_default_witness :
  let m := constructor
             {| params_n := Some (Num 0); params_a := Some (Num 0);
                params_b := Some NaN; params_c := Some (Num 0);
                params_beta := Some NaN; params_EA := Some (Num 0) |} in
  n m = Num 6 /\ a m = Num 1 /\ b m = Num 2 /\ c m = Num 3 /\
  beta m = Num (3 / 2) /\ EA m = Num 1.
Proof.
  cbv zeta.
  destruct (constructor_falsy_default
              {| params_n := Some (Num 0); params_a := Some (Num 0);
                 params_b := Some NaN; params_c := Some (Num 0);
                 params_beta := Some NaN; params_EA := Some (Num 0) |})
    as (Hn & Ha & Hb & Hc & Hbeta & HEA).
  exact (conj (Hn (Num 0) eq_refl (or_introl eq_refl))
        (conj (Ha (Num 0) eq_refl (or_introl eq_refl))
        (conj (Hb NaN eq_refl (or_intror eq_refl))
        (conj (Hc (Num 0) eq_refl (or_introl eq_refl))
        (conj (Hbeta NaN eq_refl (or_intror eq_refl))
              (HEA (Num 0) eq_refl (or_introl eq_refl))))))).
Defined.

(* ================================================================= *)
(** * Properties that depend on rounding *)

(** ** The exact arithmetic as an instance *)

(** On the exact arithmetic the embedding with rounding is the embedding
    above: the operations, and with them the methods, unfold to the same
    terms. *)
Lemma exact_operations (x y : number) (k : nat) :
  Rounded.add exact_arithmetic x y = jadd x y /\
  Rounded.sub exact_arithmetic x y = jsub x y /\
  Rounded.mul exact_arithmetic x y = jmul x y /\
  Rounded.div exact_arithmetic x y = jdiv x y /\
  Rounded.pow exact_arithmetic x k = jpow x k /\
  Rounded.Math_sqrt exact_arithmetic x = Math_sqrt x.
Proof. repeat split. Qed.

Lemma exact_constructor (p : params) :
  Rounded.constructor exact_arithmetic p = constructor p.
Proof. reflexivity. Qed.

Lemma exact_computeCreaseLength (m : KreslingModel) (h phi : number) :
  Rounded.computeCreaseLength exact_arithmetic m h phi
  = computeCreaseLength m h phi.
Proof. reflexivity. Qed.

Lemma exact_computeEnergy (m : KreslingModel) (h phi : number) :
  Rounded.computeEnergy exact_arithmetic m h phi = computeEnergy m h phi.
Proof. reflexivity. Qed.

Lemma exact_findEquilibriumTwistAngle (m : KreslingModel) (h : number) :
  Rounded.findEquilibriumTwistAngle exact_arithmetic m h
  = findEquilibriumTwistAngle m h.
Proof. reflexivity. Qed.

(** ** The order of the numbers *)

Lemma Rleb_spec (x y : R) : Rleb x y = true <-> x <= y.
Proof.
  unfold Rleb; destruct (Rle_dec x y); split; intros H;
    (reflexivity || assumption || discriminate || contradiction).
Qed.

Lemma Rltb_not (x y : R) : Rltb x y = false <-> y <= x.
Proof.
  unfold Rltb; destruct (Rlt_dec x y); split; intros H;
    try reflexivity; try discriminate; lra.
Qed.

Lemma jlt_irrefl (x : number) : jlt x x = false.
Proof.
  destruct x as [|[|]|u]; cbn [jlt andb negb]; try reflexivity.
  apply Rltb_false; lra.
Qed.

Lemma jlt_trans (x y z : number) :
  jlt x y = true -> jlt y z = true -> jlt x z = true.
Proof.
  destruct x as [|[|]|u], y as [|[|]|v], z as [|[|]|w];
    cbn [jlt andb negb]; try discriminate; try reflexivity.
  rewrite !Rltb_spec; lra.
Qed.

(** Below [y] and not below it: on numbers that are not NaN the order is
    total. *)
Lemma jlt_below (x y z : number) :
  jlt x y = true -> jlt z y = false -> z = NaN \/ jlt x z = true.
Proof.
  destruct x as [|[|]|u], y as [|[|]|v], z as [|[|]|w];
    cbn [jlt andb negb]; try discriminate;
    try (left; reflexivity); try (right; reflexivity).
  rewrite Rltb_spec, Rltb_not. intros H1 H2. right. apply Rltb_true; lra.
Qed.

Lemma jlt_not_jle (x y : number) :
  jlt x Infinity = true -> jlt y x = false -> y = NaN \/ jle x y = true.
Proof.
  destruct x as [|[|]|u], y as [|[|]|v];
    cbn [jlt jle andb orb negb]; try discriminate;
    try (left; reflexivity); try (right; reflexivity).
  rewrite Rltb_not. intros _ H. right. apply Rleb_true; exact H.
Qed.

Lemma jle_NaN_r (x : number) : jle x NaN = false.
Proof. destruct x; reflexivity. Qed.

(** ** The grid search on any energies *)

Section Search.

Variables E P : nat -> number.

Lemma keep_lower_step (s : nat) (st : number * number) :
  search_state E P s st -> search_state E P (S s) (keep_lower E P s st).
Proof.
  intros [[-> Hnone] | (i & Hi & -> & Hfin & Hmin & Hfirst)];
    unfold keep_lower.
  - destruct (jlt (E s) Infinity) eqn:Hs.
    + right. exists s. split; [lia|]. split; [reflexivity|].
      split; [exact Hs|]. split.
      * intros j Hj. destruct (Nat.eq_dec j s) as [->|Hne];
          [apply jlt_irrefl|].
        destruct (jlt (E j) (E s)) eqn:Hjs; [|reflexivity].
        rewrite <- (Hnone j) by lia. symmetry.
        exact (jlt_trans _ _ _ Hjs Hs).
      * intros j Hj. apply (jlt_below _ Infinity); [exact Hs|].
        apply Hnone; exact Hj.
    + left. split; [reflexivity|].
      intros j Hj. destruct (Nat.eq_dec j s) as [->|Hne];
        [exact Hs | apply Hnone; lia].
  - destruct (jlt (E s) (E i)) eqn:Hs.
    + right. exists s. split; [lia|]. split; [reflexivity|].
      split; [exact (jlt_trans _ _ _ Hs Hfin)|]. split.
      * intros j Hj. destruct (Nat.eq_dec j s) as [->|Hne];
          [apply jlt_irrefl|].
        destruct (jlt (E j) (E s)) eqn:Hjs; [|reflexivity].
        rewrite <- (Hmin j) by lia. symmetry.
        exact (jlt_trans _ _ _ Hjs Hs).
      * intros j Hj. apply (jlt_below _ (E i)); [exact Hs|].
        apply Hmin; exact Hj.
    + right. exists i. split; [lia|]. split; [reflexivity|].
      split; [exact Hfin|]. split; [|exact Hfirst].
      intros j Hj. destruct (Nat.eq_dec j s) as [->|Hne];
        [exact Hs | apply Hmin; lia].
Qed.

Lemma keep_lower_fold (len : nat) : forall s st,
  search_state E P s st ->
  search_state E P (s + len)
    (fold_left (fun st j => keep_lower E P j st) (seq s len) st).
Proof.
  induction len as [|len IH]; intros s st Hst.
  - rewrite Nat.add_0_r. exact Hst.
  - cbn [seq fold_left].
    replace (s + S len)%nat with (S s + len)%nat by lia.
    apply IH, keep_lower_step, Hst.
Qed.

Lemma keep_lower_loop (steps : nat) :
  search_state E P (S steps) (for_upto steps (keep_lower E P) (Infinity, Num 0)).
Proof.
  unfold for_upto. apply (keep_lower_fold (S steps) 0).
  left. split; [reflexivity | intros j Hj; lia].
Qed.

End Search.

(** C4: on every arithmetic, every instance and every height h,
    [findEquilibriumTwistAngle(h)] returns the twist angle
    phi_i = phiMin + i * phiStep of one of the 101 samples, 0 <= i <= 100,
    whose energy is below Infinity; every sample has an energy that is NaN
    or at least that of sample i, and every sample before i has an energy
    that is NaN or strictly greater: a sample whose energy is NaN is passed
    over.  When no sample has an energy below Infinity it returns 0. *)
Theorem equilibrium_least_sample_skipping_NaN (A : Arithmetic)
  (m : KreslingModel) (h : number) :
  let E i := Rounded.computeEnergy A m h (Rounded.loop_angle A m i) in
  let result := Rounded.findEquilibriumTwistAngle A m h in
  (exists i, (i <= 100)%nat /\
     result = Rounded.loop_angle A m i /\
     jlt (E i) Infinity = true /\
     (forall j, (j <= 100)%nat -> E j = NaN \/ jle (E i) (E j) = true) /\
     (forall j, (j < i)%nat -> E j = NaN \/ jlt (E i) (E j) = true)) \/
  (result = Num 0 /\
   forall j, (j <= 100)%nat -> jlt (E j) Infinity = false).
Proof.
  intros E result.
  assert (Hloop : result
            = snd (for_upto 100 (keep_lower E (Rounded.loop_angle A m))
                     (Infinity, Num 0))).
  { reflexivity. }
  destruct (keep_lower_loop E (Rounded.loop_angle A m) 100)
    as [[Hst Hnone] | (i & Hi & Hst & Hfin & Hmin & Hfirst)];
    rewrite Hst in Hloop; cbn [snd] in Hloop.
  - right. split; [exact Hloop|].
    intros j Hj; apply Hnone; lia.
  - left. exists i. split; [lia|]. split; [exact Hloop|].
    split; [exact Hfin|]. split; [|exact Hfirst].
    intros j Hj. apply jlt_not_jle; [exact Hfin | apply Hmin; lia].
Qed.

(** ** The sign of the energy *)

Lemma never_negative_cases (x : number) :
  never_negative x <-> x = NaN \/ x = Infinity \/ exists u, x = Num u /\ 0 <= u.
Proof.
  unfold never_negative. split.
  - intros [->|H]; [left; reflexivity|].
    destruct x as [|[|]|u]; cbn [jle negb] in H; try discriminate.
    + right; left; reflexivity.
    + right; right; exists u; split; [reflexivity | apply Rleb_spec; exact H].
  - intros [->|[->|(u & -> & Hu)]]; [left | right | right]; try reflexivity.
    cbn [jle]. apply Rleb_true; exact Hu.
Qed.

Section Signs.

Variable A : Arithmetic.
Hypothesis Hsign : sign_preserving A.

Lemma never_negative_rnd (x : R) : 0 <= x -> never_negative (rnd A x).
Proof. intros Hx; right; apply Hsign; exact Hx. Qed.

Lemma never_negative_add (x y : number) :
  never_negative x -> never_negative y -> never_negative (Rounded.add A x y).
Proof.
  rewrite !never_negative_cases.
  intros [->|[->|(u & -> & Hu)]] [->|[->|(v & -> & Hv)]];
    cbn [Rounded.add Bool.eqb];
    try (left; reflexivity); try (right; left; reflexivity).
  apply never_negative_cases, never_negative_rnd; lra.
Qed.

Lemma never_negative_mul (x y : number) :
  never_negative x -> never_negative y -> never_negative (Rounded.mul A x y).
Proof.
  rewrite !never_negative_cases.
  intros [->|[->|(u & -> & Hu)]] [->|[->|(v & -> & Hv)]];
    cbn [Rounded.mul xorb];
    try (left; reflexivity); try (right; left; reflexivity).
  - destruct (Reqb v 0); [left; reflexivity|].
    rewrite (Rltb_false v 0 Hv). right; left; reflexivity.
  - destruct (Reqb u 0); [left; reflexivity|].
    rewrite (Rltb_false u 0 Hu). right; left; reflexivity.
  - apply never_negative_cases, never_negative_rnd, Rmult_le_pos; assumption.
Qed.

Lemma never_negative_half (x : number) :
  never_negative x -> never_negative (Rounded.div A x (Num 2)).
Proof.
  rewrite !never_negative_cases.
  intros [->|[->|(u & -> & Hu)]]; cbn [Rounded.div xorb].
  - left; reflexivity.
  - rewrite (Rltb_false 2 0) by lra. right; left; reflexivity.
  - rewrite (Reqb_false 2 0) by lra.
    apply never_negative_cases, never_negative_rnd. lra.
Qed.

Lemma never_negative_square (x : number) :
  never_negative (Rounded.pow A x 2).
Proof.
  destruct x as [|s|u]; cbn [Rounded.pow Nat.odd negb].
  - left; reflexivity.
  - rewrite andb_false_r. right; reflexivity.
  - apply never_negative_rnd, pow2_ge_0.
Qed.

Lemma never_negative_sqrt (x : number) :
  never_negative (Rounded.Math_sqrt A x).
Proof.
  destruct x as [|[|]|u]; cbn [Rounded.Math_sqrt].
  - left; reflexivity.
  - left; reflexivity.
  - right; reflexivity.
  - destruct (Rltb u 0); [left; reflexivity|].
    apply never_negative_rnd, sqrt_pos.
Qed.

Lemma never_negative_quotient (u : R) (y : number) :
  0 < u -> never_negative y -> never_negative (Rounded.div A (Num u) y).
Proof.
  intros Hu. rewrite (never_negative_cases y).
  intros [->|[->|(v & -> & Hv)]]; cbn [Rounded.div].
  - left; reflexivity.
  - right. cbn [jle]. apply Rleb_true; lra.
  - destruct (Req_dec_T v 0) as [->|Hne].
    + rewrite (Reqb_true 0 0) by reflexivity.
      rewrite (Reqb_false u 0) by lra.
      rewrite (Rltb_false u 0) by lra. right; reflexivity.
    + rewrite (Reqb_false v 0 Hne).
      apply never_negative_rnd.
      apply Rlt_le, Rdiv_lt_0_compat; lra.
Qed.

End Signs.

(** C6: on an arithmetic whose rounding keeps a result that is not negative
    from becoming negative, for a parameter set within the documented
    constraints (integer n >= 3, a, b, c > 0, 0 < beta < pi, EA > 0) and all
    h and phi, [computeEnergy(h, phi)] is never negative: it is NaN or it is
    at least 0. *)
Theorem energy_never_negative (A : Arithmetic) (k : nat)
  (va vb vc vbeta vEA : R) (h phi : number) :
  sign_preserving A ->
  (3 <= k)%nat -> 0 < va -> 0 < vb -> 0 < vc -> 0 < vbeta < PI -> 0 < vEA ->
  let energy :=
    Rounded.computeEnergy A
      (Rounded.constructor A (valid_params k va vb vc vbeta vEA)) h phi in
  energy = NaN \/ jge energy (Num 0) = true.
Proof.
  intros Hsign Hk Ha Hb Hc Hbeta HEA. cbv zeta.
  set (m := Rounded.constructor A (valid_params k va vb vc vbeta vEA)).
  assert (Hn : n m = Num (INR k)).
  { unfold m, Rounded.constructor, valid_params; cbn [n params_n].
    apply or_default_truthy, truthy_Num, not_0_INR. lia. }
  assert (Hkm : never_negative (km m)).
  { unfold m, Rounded.constructor, valid_params;
      cbn [km params_EA params_c].
    rewrite !or_default_truthy by (apply truthy_Num; lra).
    apply never_negative_quotient; [exact Hsign | exact HEA |].
    right. cbn [jle]. apply Rleb_true; lra. }
  assert (Hkv : never_negative (kv m)).
  { unfold m, Rounded.constructor, valid_params;
      cbn [kv params_EA].
    rewrite (or_default_truthy (Num vEA)) by (apply truthy_Num; lra).
    apply never_negative_quotient; [exact Hsign | exact HEA |].
    apply never_negative_sqrt; exact Hsign. }
  assert (Hnn : never_negative (n m)).
  { rewrite Hn. right. cbn [jle]. apply Rleb_true, pos_INR. }
  change (never_negative (Rounded.computeEnergy A m h phi)).
  unfold Rounded.computeEnergy, Rounded.computeCreaseLength.
  cbv beta iota zeta.
  apply never_negative_add; [exact Hsign | |];
    apply never_negative_half; try exact Hsign;
    apply never_negative_mul; try exact Hsign;
    try (apply never_negative_square; exact Hsign);
    apply never_negative_mul; assumption.
Qed.

(** ** A unit whose squares overflow *)

Lemma threshold_bounds : 8 <= overflow_threshold.
Proof.
  unfold overflow_threshold.
  assert (H : 2 ^ 3 <= 2 ^ 1024) by (apply Rle_pow; [lra | lia]).
  replace (2 ^ 3) with 8 in H by (simpl; lra). exact H.
Qed.

Lemma huge_edge_bounds : 0 < 2 ^ 599 /\ huge_edge = 2 * 2 ^ 599.
Proof.
  split; [apply pow_lt; lra|].
  unfold huge_edge. change (2 ^ 600) with (2 * 2 ^ 599). reflexivity.
Qed.

Lemma large_product_bound (u v : R) :
  2 ^ 599 <= u -> 2 ^ 599 <= v -> overflow_threshold <= u * v.
Proof.
  intros Hu Hv. pose proof (proj1 huge_edge_bounds) as Hpos.
  assert (H1 : overflow_threshold <= 2 ^ 599 * 2 ^ 599).
  { unfold overflow_threshold. rewrite <- pow_add.
    apply Rle_pow; [lra | lia]. }
  assert (H2 : 2 ^ 599 * 2 ^ 599 <= u * v)
    by (apply Rmult_le_compat; lra).
  lra.
Qed.

Section Binary64Like.

Variable A : Arithmetic.
Hypothesis HA : binary64_like A.

Lemma like_monotone : monotone A.
Proof. exact (proj1 HA). Qed.

Lemma like_overflow (x : R) : overflow_threshold <= x -> rnd A x = Infinity.
Proof. exact (proj1 (proj2 HA) x). Qed.

Lemma like_zero : representable A 0.
Proof. exact (proj1 (proj2 (proj2 HA))). Qed.

Lemma like_power (k : nat) :
  (k <= 1023)%nat -> representable A (2 ^ k) /\ representable A (/ 2 ^ k).
Proof. exact (proj1 (proj2 (proj2 (proj2 HA))) k). Qed.

Lemma like_small :
  representable A 2 /\ representable A 4 /\ representable A 8 /\
  representable A (/ 4) /\ representable A 1.
Proof.
  assert (H1 : (1 <= 1023)%nat) by lia. assert (H2 : (2 <= 1023)%nat) by lia.
  assert (H3 : (3 <= 1023)%nat) by lia. assert (H0 : (0 <= 1023)%nat) by lia.
  pose proof (proj1 (like_power 1 H1)) as P1.
  pose proof (like_power 2 H2) as [P2 Q2].
  pose proof (proj1 (like_power 3 H3)) as P3.
  pose proof (proj1 (like_power 0 H0)) as P0.
  replace (2 ^ 1) with 2 in P1 by (simpl; lra).
  replace (2 ^ 2) with 4 in P2, Q2 by (simpl; lra).
  replace (2 ^ 3) with 8 in P3 by (simpl; lra).
  replace (2 ^ 0) with 1 in P0 by (simpl; lra).
  repeat split; assumption.
Qed.

(** A result between two numbers of the arithmetic is rounded to a number
    between them. *)
Lemma like_between (lo hi x : R) :
  representable A lo -> representable A hi -> lo <= x <= hi ->
  exists y, rnd A x = Num y /\ lo <= y <= hi.
Proof.
  intros Hlo Hhi [H1 H2].
  pose proof (like_monotone lo x H1) as M1. rewrite Hlo in M1.
  pose proof (like_monotone x hi H2) as M2. rewrite Hhi in M2.
  destruct (rnd A x) as [|[|]|y]; cbn [jle negb] in M1, M2; try discriminate.
  exists y. split; [reflexivity|]. split; apply Rleb_spec; assumption.
Qed.

Lemma like_at_least (lo x : R) :
  representable A lo -> lo <= x ->
  rnd A x = Infinity \/ exists y, rnd A x = Num y /\ lo <= y.
Proof.
  intros Hlo H1.
  pose proof (like_monotone lo x H1) as M1. rewrite Hlo in M1.
  destruct (rnd A x) as [|[|]|y]; cbn [jle negb] in M1; try discriminate.
  - left; reflexivity.
  - right. exists y. split; [reflexivity | apply Rleb_spec; exact M1].
Qed.

Lemma like_sign_preserving : sign_preserving A.
Proof.
  intros x Hx. rewrite <- like_zero. apply like_monotone; exact Hx.
Qed.

Lemma like_PI : exists p, Rounded.Math_PI A = Num p /\ 2 <= p <= 4.
Proof.
  destruct like_small as (R2 & R4 & _).
  apply like_between; [exact R2 | exact R4 |].
  pose proof PI2_1. pose proof PI_4. lra.
Qed.

Lemma like_six : or_default (Some (Num (INR 6))) (Num 6) = Num (INR 6).
Proof. apply or_default_truthy, truthy_Num. rewrite INR_6; lra. Qed.

(** [Math.sin(Math.PI / 6)] is a number above 0 and at most 1. *)
Lemma like_sine :
  exists s, Rounded.Math_sin A (Rounded.div A (Rounded.Math_PI A) (Num (INR 6)))
            = Num s /\ 0 < s <= 1.
Proof.
  destruct like_small as (_ & _ & _ & Rq & R1).
  destruct like_PI as (p & -> & Hp).
  cbn [Rounded.div]. rewrite (Reqb_false (INR 6) 0) by (rewrite INR_6; lra).
  destruct (like_between (/ 4) 1 (p / INR 6) Rq R1) as (t & -> & Ht).
  { rewrite INR_6. lra. }
  unfold Rounded.Math_sin. apply (proj2 (proj2 (proj2 (proj2 (proj2 HA))))).
  exact Ht.
Qed.

(** The radius of an edge of [2 ^ 600] is large. *)
Lemma like_radius :
  large (Rounded.div A (Num huge_edge)
           (Rounded.mul A (Num 2)
              (Rounded.Math_sin A
                 (Rounded.div A (Rounded.Math_PI A) (Num (INR 6)))))).
Proof.
  destruct like_small as (R2 & _).
  destruct huge_edge_bounds as [Hpos Hhuge].
  destruct like_sine as (s & -> & Hs).
  cbn [Rounded.mul].
  destruct (like_between 0 2 (2 * s) like_zero R2) as (w & -> & Hw); [lra|].
  cbn [Rounded.div].
  destruct (Req_dec_T w 0) as [->|Hne].
  - rewrite (Reqb_true 0 0) by reflexivity.
    rewrite (Reqb_false huge_edge 0), (Rltb_false huge_edge 0) by lra.
    left; reflexivity.
  - rewrite (Reqb_false w 0 Hne).
    assert (H599 : (599 <= 1023)%nat) by lia.
    apply (like_at_least (2 ^ 599)); [exact (proj1 (like_power 599 H599))|].
    rewrite Hhuge.
    apply Rmult_le_reg_r with w; [lra|].
    unfold Rdiv. rewrite Rmult_assoc, Rinv_l, Rmult_1_r by exact Hne.
    assert (0 <= 2 ^ 599 * (2 - w)) by (apply Rmult_le_pos; lra). lra.
Qed.

Lemma large_square (x : number) : large x -> Rounded.pow A x 2 = Infinity.
Proof.
  intros [->|(v & -> & Hv)]; [reflexivity|].
  cbn [Rounded.pow]. apply like_overflow.
  replace (v ^ 2) with (v * v) by ring.
  apply large_product_bound; exact Hv.
Qed.

Lemma large_double (x : number) : large x -> large (Rounded.mul A (Num 2) x).
Proof.
  pose proof (proj1 huge_edge_bounds) as Hpos.
  intros [->|(v & -> & Hv)]; cbn [Rounded.mul xorb].
  - rewrite (Reqb_false 2 0), (Rltb_false 2 0) by lra. left; reflexivity.
  - assert (H599 : (599 <= 1023)%nat) by lia.
    apply (like_at_least (2 ^ 599)); [exact (proj1 (like_power 599 H599))|].
    lra.
Qed.

Lemma large_product (x y : number) :
  large x -> large y -> Rounded.mul A x y = Infinity.
Proof.
  pose proof (proj1 huge_edge_bounds) as Hpos.
  intros [->|(u & -> & Hu)] [->|(v & -> & Hv)]; cbn [Rounded.mul xorb].
  - reflexivity.
  - rewrite (Reqb_false v 0), (Rltb_false v 0) by lra. reflexivity.
  - rewrite (Reqb_false u 0), (Rltb_false u 0) by lra. reflexivity.
  - apply like_overflow, large_product_bound; assumption.
Qed.

(** The fields of the unit n = 6, a = b = 2^600 that the energy at (0, 0)
    depends on: both radii are large. *)
Lemma huge_unit_fields (vc vbeta vEA : R) :
  let m := Rounded.constructor A (valid_params 6 huge_edge huge_edge vc vbeta vEA) in
  n m = Num (INR 6) /\ large (r m) /\ large (R_ m).
Proof.
  cbv zeta. destruct huge_edge_bounds as [Hpos Hhuge].
  assert (Ha : forall dflt, or_default (Some (Num huge_edge)) dflt = Num huge_edge)
    by (intros dflt; apply or_default_truthy, truthy_Num; lra).
  unfold Rounded.constructor, valid_params.
  cbn [n r R_ params_n params_a params_b].
  rewrite like_six, !Ha.
  split; [reflexivity|]. split; exact like_radius.
Qed.

(** At h = 0 and phi = 0 both squared radii and their doubled product are
    Infinity, the radicand of the mountain crease is Infinity - Infinity,
    and the energy is NaN. *)
Lemma huge_unit_energy (vc vbeta vEA : R) :
  Rounded.computeEnergy A
    (Rounded.constructor A (valid_params 6 huge_edge huge_edge vc vbeta vEA))
    (Num 0) (Num 0)
  = NaN.
Proof.
  destruct (huge_unit_fields vc vbeta vEA) as (Hn & Hr & HR).
  set (m := Rounded.constructor A _) in *.
  assert (HcT : fst (Rounded.computeCreaseLength A m (Num 0) (Num 0)) = NaN).
  { unfold Rounded.computeCreaseLength; cbn [fst].
    rewrite (large_square _ Hr), (large_square _ HR).
    rewrite (large_product _ _ (large_double _ Hr) HR).
    cbn [Rounded.pow]. replace (0 ^ 2) with 0 by ring. rewrite like_zero.
    unfold Rounded.Math_cos.
    rewrite (proj1 (proj2 (proj2 (proj2 (proj2 HA))))).
    cbn [Rounded.add Rounded.mul Bool.eqb xorb].
    rewrite (Reqb_false 1 0), (Rltb_false 1 0) by lra.
    reflexivity. }
  unfold Rounded.computeEnergy.
  destruct (Rounded.computeCreaseLength A m (Num 0) (Num 0))
    as [cTilde dTilde].
  cbn [fst] in HcT. subst cTilde.
  cbn [Rounded.sub Rounded.pow].
  destruct (Rounded.mul A (n m) (km m)); reflexivity.
Qed.

(** Grid sample 0 of that unit is the angle 0. *)
Lemma huge_unit_sample_0 (vc vbeta vEA : R) :
  Rounded.grid_sample A
    (Rounded.constructor A (valid_params 6 huge_edge huge_edge vc vbeta vEA)) 0
  = Num 0.
Proof.
  destruct (huge_unit_fields vc vbeta vEA) as (Hn & _ & _).
  destruct like_small as (R2 & R4 & R8 & _).
  unfold Rounded.grid_sample. rewrite Hn.
  destruct like_PI as (p & -> & Hp).
  cbn [Rounded.mul].
  destruct (like_between 4 8 (2 * p) R4 R8) as (q & -> & Hq); [lra|].
  cbn [Rounded.div]. rewrite (Reqb_false (INR 6) 0) by (rewrite INR_6; lra).
  destruct (like_between 0 2 (q / INR 6) like_zero R2) as (t & -> & Ht).
  { rewrite INR_6. lra. }
  cbn [Rounded.sub].
  destruct (like_between 0 4 (p - t) like_zero R4) as (w & -> & Hw); [lra|].
  cbn [Math_min Rounded.mul]. replace (INR 0) with 0 by reflexivity.
  rewrite Rmult_0_l, like_zero.
  cbn [Rounded.div]. rewrite (Reqb_false 100 0) by lra.
  replace (0 / 100) with 0 by field. exact like_zero.
Qed.

End Binary64Like.

(** The arithmetic that overflows is like binary64 in these respects. *)
Lemma overflowing_small (x : R) :
  Rabs x < overflow_threshold -> rnd overflowing_arithmetic x = Num x.
Proof.
  intros H. cbn [rnd overflowing_arithmetic].
  rewrite (Rleb_false _ _ H). reflexivity.
Qed.

Lemma overflowing_monotone : monotone overflowing_arithmetic.
Proof.
  intros x y H. pose proof threshold_bounds as Ht.
  cbn [rnd overflowing_arithmetic]. unfold Rleb at 1 2, Rltb.
  destruct (Rle_dec overflow_threshold (Rabs x)) as [Hx|Hx];
    destruct (Rle_dec overflow_threshold (Rabs y)) as [Hy|Hy];
    destruct (Rlt_dec x 0) as [Hx0|Hx0];
    destruct (Rlt_dec y 0) as [Hy0|Hy0];
    cbn [jle orb negb]; try reflexivity;
    unfold Rabs in Hx, Hy;
    destruct (Rcase_abs x), (Rcase_abs y);
    try lra; apply Rleb_true; lra.
Qed.

Lemma overflowing_binary64_like : binary64_like overflowing_arithmetic.
Proof.
  pose proof threshold_bounds as Ht.
  split; [exact overflowing_monotone|].
  split.
  { intros x Hx. cbn [rnd overflowing_arithmetic].
    rewrite Rabs_pos_eq by lra.
    rewrite (Rleb_true _ _ Hx), (Rltb_false x 0) by lra. reflexivity. }
  split; [apply overflowing_small; rewrite Rabs_R0; lra|].
  split.
  { intros k Hk.
    assert (Hpos : 0 < 2 ^ k) by (apply pow_lt; lra).
    assert (Hone : 1 <= 2 ^ k) by (apply pow_R1_Rle; lra).
    assert (Hlt : 2 ^ k < overflow_threshold)
      by (unfold overflow_threshold; apply Rlt_pow; [lra | lia]).
    split; apply overflowing_small.
    - rewrite Rabs_pos_eq; lra.
    - assert (Hinv : 0 < / 2 ^ k <= 1).
      { split; [apply Rinv_0_lt_compat; exact Hpos|].
        rewrite <- Rinv_1. apply Rinv_le_contravar; lra. }
      rewrite Rabs_pos_eq; lra. }
  split.
  { cbn [cos_of overflowing_arithmetic Math_cos]. rewrite cos_0. reflexivity. }
  intros u Hu. exists (sin u). split; [reflexivity|].
  pose proof PI2_1. pose proof (SIN_bound u) as [_ Hs].
  split; [apply sin_gt_0; lra | exact Hs].
Qed.

Lemma exact_sign_preserving : sign_preserving exact_arithmetic.
Proof. intros x Hx. cbn [rnd exact_arithmetic jle]. apply Rleb_true; exact Hx. Qed.

(** C6, as stated, fails on an arithmetic that overflows as binary64 does:
    for the unit n = 6, a = b = 2^600, c = 1, beta = 1.5, EA = 1, which is
    within the documented constraints, [computeEnergy(0, 0)] is NaN and
    [computeEnergy(0, 0) >= 0] is false. *)
Lemma energy_not_nonneg_on_overflow :
  jge (Rounded.computeEnergy overflowing_arithmetic
         (Rounded.constructor overflowing_arithmetic
            (valid_params 6 huge_edge huge_edge 1 (3 / 2) 1))
         (Num 0) (Num 0))
      (Num 0) = false.
Proof.
  rewrite (huge_unit_energy _ overflowing_binary64_like). reflexivity.
Qed.

(** C4, as stated, fails on an arithmetic that overflows as binary64 does:
    for the same unit and h = 0 the energy of grid sample 0 is NaN, so the
    energy at the angle that [findEquilibriumTwistAngle(0)] returns is not
    at most the energy of every grid sample. *)
Lemma equilibrium_not_least_on_overflow :
  let m := Rounded.constructor overflowing_arithmetic
             (valid_params 6 huge_edge huge_edge 1 (3 / 2) 1) in
  let energy := Rounded.computeEnergy overflowing_arithmetic m (Num 0) in
  jle (energy (Rounded.findEquilibriumTwistAngle overflowing_arithmetic m (Num 0)))
      (energy (Rounded.grid_sample overflowing_arithmetic m 0))
  = false.
Proof.
  cbv zeta.
  rewrite (huge_unit_sample_0 _ overflowing_binary64_like).
  rewrite (huge_unit_energy _ overflowing_binary64_like).
  apply jle_NaN_r.
Qed.

Lemma energy_never_negative_witness :
  let exact_energy :=
    Rounded.computeEnergy exact_arithmetic
      (Rounded.constructor exact_arithmetic (valid_params 6 1 2 3 (3 / 2) 1))
      (Num 2) (Num 0) in
  let overflowing_energy :=
    Rounded.computeEnergy overflowing_arithmetic
      (Rounded.constructor overflowing_arithmetic
         (valid_params 6 huge_edge huge_edge 1 (3 / 2) 1))
      (Num 0) (Num 0) in
  (exact_energy = NaN \/ jge exact_energy (Num 0) = true) /\
  (overflowing_energy = NaN \/ jge overflowing_energy (Num 0) = true).
Proof.
  cbv zeta.
  assert (Hk : (3 <= 6)%nat) by lia.
  assert (H1 : 0 < 1) by lra. assert (H2 : 0 < 2) by lra.
  assert (H3 : 0 < 3) by lra.
  assert (Hh : 0 < huge_edge) by (pose proof huge_edge_bounds; lra).
  split.
  - exact (energy_never_negative exact_arithmetic 6 1 2 3 (3 / 2) 1
             (Num 2) (Num 0) exact_sign_preserving
             Hk H1 H2 H3 default_beta_in_range H1).
  - exact (energy_never_negative overflowing_arithmetic 6 huge_edge huge_edge
             1 (3 / 2) 1 (Num 0) (Num 0)
             (like_sign_preserving _ overflowing_binary64_like)
             Hk Hh Hh H1 default_beta_in_range H1).
Defined.

(* ================================================================= *)
(** * Further properties of the code *)

(** ** Counted loops *)

Lemma for_while_runs {St : Type} (cond : number -> bool)
  (body : number -> St -> St) (k : nat) :
  forall (fuel i : nat) (st : St),
  (forall j, (i <= j < i + k)%nat -> cond (Num (INR j)) = true) ->
  cond (Num (INR (i + k))) = false ->
  (k < fuel)%nat ->
  for_while fuel cond body i st
  = Some (fold_left (fun s j => body (Num (INR j)) s) (seq i k) st).
Proof.
  induction k as [|k IH]; intros fuel i st Htrue Hfalse Hfuel.
  - destruct fuel as [|fuel]; [lia|]. cbn [for_while seq fold_left].
    rewrite Nat.add_0_r in Hfalse. rewrite Hfalse. reflexivity.
  - destruct fuel as [|fuel]; [lia|]. cbn [for_while seq fold_left].
    rewrite (Htrue i) by lia.
    apply IH; [| | lia].
    + intros j Hj; apply Htrue; lia.
    + replace (S i + k)%nat with (i + S k)%nat by lia. exact Hfalse.
Qed.


Lemma fold_left_push2 {A B : Type} (f : nat -> A) (g : nat -> B) (l : list nat) :
  forall (t : list A) (u : list B),
  fold_left (fun (st : list A * list B) j =>
               let '(t, u) := st in (t ++ [f j], u ++ [g j])) l (t, u)
  = (t ++ map f l, u ++ map g l).
Proof.
  induction l as [|j l IH]; intros t u; cbn [fold_left map].
  - rewrite !app_nil_r; reflexivity.
  - rewrite IH, <- !app_assoc. reflexivity.
Qed.

Lemma fold_left_push {A : Type} (f : nat -> A) (l : list nat) :
  forall (t : list A),
  fold_left (fun (st : list A) j => st ++ [f j]) l t = t ++ map f l.
Proof.
  induction l as [|j l IH]; intros t; cbn [fold_left map].
  - rewrite app_nil_r; reflexivity.
  - rewrite IH, <- app_assoc. reflexivity.
Qed.

(** The counter values below a bound [x] when [k] is its ceiling *)
Lemma below_ceiling (x : R) (k j : nat) :
  INR k - 1 < x -> (j < k)%nat -> INR j < x.
Proof.
  intros Hx Hj. apply lt_INR in Hj as Hj'.
  assert (INR j + 1 <= INR k).
  { rewrite <- S_INR. apply le_INR. lia. }
  lra.
Qed.

(** ** Vertex coordinates *)

Lemma getVertexCoordinates_lists (m : KreslingModel) (x : R) (k fuel : nat)
  (h phi : number) :
  n m = Num x -> x <= INR k -> INR k - 1 < x -> (k < fuel)%nat ->
  getVertexCoordinates fuel m h phi
  = Some {| topVertices := map (topVertex m h phi) (seq 0 k);
            bottomVertices := map (bottomVertex m h) (seq 0 k);
            midPoint := (Num 0, Num 0, jdiv h (Num 2)) |}.
Proof.
  intros Hn Hle Hgt Hfuel.
  unfold getVertexCoordinates; cbv zeta.
  rewrite (for_while_runs _ _ k fuel 0); [| | | exact Hfuel].
  - match goal with
    | |- context [fold_left ?f (seq 0 k) ([], [])] =>
        change (fold_left f (seq 0 k) ([], []))
          with (fold_left
                  (fun (st : list vec3 * list vec3) j =>
                     let '(t, u) := st in
                     (t ++ [topVertex m h phi j], u ++ [bottomVertex m h j]))
                  (seq 0 k) ([], []))
    end.
    rewrite fold_left_push2. reflexivity.
  - intros j Hj. rewrite Hn. cbn [jlt]. apply Rltb_true.
    apply (below_ceiling x k j Hgt). lia.
  - rewrite Hn. cbn [jlt Nat.add]. apply Rltb_false. exact Hle.
Qed.

(** X1: when n is a finite number above 0 and at most 4294967295 (the
    greatest length of an array; the loop counter is exact up to it) and k
    is the least integer not below n, [getVertexCoordinates] returns, given
    fuel for k iterations, exactly k vertices on each polygon. *)
Theorem getVertexCoordinates_count (m : KreslingModel) (x : R) (k fuel : nat)
  (h phi : number) :
  n m = Num x -> x <= 4294967295 ->
  x <= INR k -> INR k - 1 < x -> (k < fuel)%nat ->
  exists v, getVertexCoordinates fuel m h phi = Some v /\
    List.length (topVertices v) = k /\ List.length (bottomVertices v) = k.
Proof.
  intros Hn _ Hle Hgt Hfuel.
  rewrite (getVertexCoordinates_lists m x k fuel h phi Hn Hle Hgt Hfuel).
  eexists; split; [reflexivity|].
  cbn [topVertices bottomVertices].
  rewrite !length_map, length_seq. split; reflexivity.
Qed.


(** ** Parameter updates *)

(** X7: the two copies of the derived-quantity formulas agree.  After a
    parameter update of a, b, c, beta or n that leaves none of the six
    parameters 0 or NaN, the instance is, field by field and with an empty
    cache, the one that the constructor builds from the six parameters it
    now holds. *)
Theorem update_is_fresh_unit (param : param_name) (value : number)
  (m : KreslingModel) :
  let m' := setModelParameter param value m in
  geometric param = true ->
  truthy (n m') = true -> truthy (a m') = true -> truthy (b m') = true ->
  truthy (c m') = true -> truthy (beta m') = true -> truthy (EA m') = true ->
  m' = constructor (params_of m').
Proof.
  cbv zeta. intros Hg. unfold setModelParameter. rewrite Hg.
  set (m1 := assign m param value).
  cbn [recalculate n a b c beta EA].
  intros Hn Ha Hb Hc Hbeta HEA.
  unfold constructor, params_of.
  cbn [params_n params_a params_b params_c params_beta params_EA
       recalculate n a b c beta EA].
  rewrite !or_default_truthy by assumption.
  reflexivity.
Qed.

(** X8: parameter updates compose as assignments.  Updates of two different
    parameters among a, b, c, beta, n give the same instance in either
    order, and of two updates of one parameter the later one alone
    counts. *)
Theorem updates_compose (m : KreslingModel) (v w : number) :
  (forall p q, geometric p = true -> geometric q = true -> p <> q ->
     updateModelParameter p v (updateModelParameter q w m)
     = updateModelParameter q w (updateModelParameter p v m)) /\
  (forall p,
     updateModelParameter p v (updateModelParameter p w m)
     = updateModelParameter p v m).
Proof.
  split.
  - intros p q Hp Hq Hne.
    destruct p; try (cbv in Hp; discriminate Hp);
      destruct q; try (cbv in Hq; discriminate Hq);
      try (exfalso; apply Hne; reflexivity); reflexivity.
  - intros p. destruct p; try reflexivity.
    unfold updateModelParameter, updateModel, setModelParameter.
    replace (geometric P_EA) with false by reflexivity.
    unfold findStableStates.
    change (_stableStates (assign m P_EA w)) with (_stableStates m).
    change (_stableStates (assign m P_EA v)) with (_stableStates m).
    destruct (_stableStates m) as [cached|] eqn:Hc; cbn [snd].
    + change (_stableStates (assign (assign m P_EA w) P_EA v))
        with (_stableStates m).
      rewrite Hc. reflexivity.
    + reflexivity.
Qed.

Lemma division_by_zero_unbounded (x y : number) :
  jle (Math_abs (jmul (jdiv x (Num 0)) y)) (Num 1) = false.
Proof.
  assert (Hdiv : jdiv x (Num 0) = NaN \/ exists s, jdiv x (Num 0) = Inf s).
  { destruct x as [|s|u]; cbn [jdiv].
    - left; reflexivity.
    - right; eexists; reflexivity.
    - rewrite (Reqb_true 0 0) by reflexivity.
      destruct (Reqb u 0); [left | right; eexists]; reflexivity. }
  destruct Hdiv as [-> | (s & ->)]; [reflexivity|].
  destruct y as [|t|v]; cbn [jmul Math_abs jle]; try reflexivity.
  destruct (Reqb v 0); reflexivity.
Qed.

(** X9: a zero top edge or a zero cell count switches the stable states
    off.  After a parameter update that sets a to 0 or n to 0, whatever the
    other fields are, lambda is NaN or infinite, [findStableStates()]
    returns two absent states and [isBistable()] is false. *)
Theorem zero_a_or_n_no_stable_states (m : KreslingModel) (param : param_name) :
  param = P_a \/ param = P_n ->
  let m' := updateModelParameter param (Num 0) m in
  fst (findStableStates m') = {| state1 := None; state2 := None |} /\
  fst (isBistable m') = false.
Proof.
  intros Hparam. cbv zeta.
  assert (Hlam : jle (Math_abs (lambda (setModelParameter param (Num 0) m)))
                     (Num 1) = false).
  { destruct Hparam as [-> | ->]; unfold lambda.
    - apply division_by_zero_unbounded.
    - cbn [setModelParameter assign recalculate geometric n a b c beta].
      replace (n (setModelParameter P_n (Num 0) m)) with (Num 0) by reflexivity.
      unfold Math_PI. cbn [jdiv].
      rewrite (Reqb_true 0 0) by reflexivity.
      rewrite (Reqb_false PI 0) by (pose proof PI_RGT_0; lra).
      cbn [Math_sin].
      destruct (jdiv _ _) as [|s|u]; reflexivity. }
  assert (Hcomp : computeStableStates (setModelParameter param (Num 0) m)
                  = {| state1 := None; state2 := None |}).
  { unfold computeStableStates; cbv zeta. rewrite Hlam. reflexivity. }
  assert (Hnone : _stableStates (setModelParameter param (Num 0) m) = None).
  { apply setModelParameter_cleared. destruct Hparam as [-> | ->]; reflexivity. }
  assert (Hfind : fst (findStableStates
                         (updateModelParameter param (Num 0) m))
                  = {| state1 := None; state2 := None |}).
  { unfold updateModelParameter, updateModel, findStableStates.
    rewrite Hnone. cbn [snd set_stableStates _stableStates fst].
    exact Hcomp. }
  split; [exact Hfind|].
  unfold isBistable.
  destruct (findStableStates (updateModelParameter param (Num 0) m))
    as [ss m2] eqn:Hf.
  cbn [fst] in Hfind. subst ss. reflexivity.
Qed.

(** ** The state panel *)

(** X10: the state panel never shows a single stable state.  On every
    instance the program can hold, [updateStableStatesInfo] renders the
    "Bistable Configuration" table when |lambda| <= 1 and the "No stable
    states found" note otherwise; its two "Monostable Configuration"
    branches are never taken. *)
Theorem state_panel_never_monostable (m : KreslingModel) :
  reachable m ->
  (forall st, fst (updateStableStatesInfo m) <> InfoMonostable st) /\
  (jle (Math_abs (lambda m)) (Num 1) = true ->
   exists s1 s2 barrier, fst (updateStableStatesInfo m) = InfoBistable s1 s2 barrier) /\
  (jle (Math_abs (lambda m)) (Num 1) = false ->
   fst (updateStableStatesInfo m) = InfoUnstable).
Proof.
  intros Hr. unfold updateStableStatesInfo.
  pose proof (findStableStates_coherent m (reachable_coherent m Hr)) as Hss.
  destruct (findStableStates m) as [ss m'] eqn:Hf. cbn [fst] in Hss.
  subst ss. unfold computeStableStates; cbv zeta.
  destruct (jle (Math_abs (lambda m)) (Num 1)); cbn [state1 state2 fst].
  - split; [intros st; discriminate|].
    split; [intros _; do 3 eexists; reflexivity | discriminate].
  - split; [intros st; discriminate|].
    split; [discriminate | reflexivity].
Qed.

(** ** The grid search and the energy landscape *)

Lemma NaN_energy (m : KreslingModel) (phi : number) :
  computeEnergy m NaN phi = NaN.
Proof.
  unfold computeEnergy, computeCreaseLength; cbv zeta.
  cbn [jpow jadd jsub Math_sqrt].
  destruct (jmul (n m) (km m)), (jmul (n m) (kv m)); reflexivity.
Qed.

(** X12: the energy landscape.  On every instance, for all numbers hMin and
    hMax and an integer steps = s with 0 <= s <= 4294967294 (so that the
    s + 1 points fit an array and the loop counter is exact),
    [computeEnergyLandscape] returns, given fuel for s + 1 iterations,
    exactly s + 1 points, and point i is the pair of the height
    h_i = hMin + i * hStep and of [computeEnergy] at h_i and at the angle
    that [findEquilibriumTwistAngle(h_i)] returns. *)
Theorem energy_landscape_points (m : KreslingModel) (hMin hMax : number)
  (s fuel : nat) :
  INR s <= 4294967294 -> (S s < fuel)%nat ->
  let hStep := jdiv (jsub hMax hMin) (Num (INR s)) in
  let height i := jadd hMin (jmul (Num (INR i)) hStep) in
  exists l,
    computeEnergyLandscape fuel m (Some hMin) (Some hMax) (Some (Num (INR s)))
    = Some l /\
    List.length l = S s /\
    forall i, (i <= s)%nat ->
      nth_error l i
      = Some (height i,
              computeEnergy m (height i)
                (findEquilibriumTwistAngle m (height i))).
Proof.
  intros _ Hfuel; cbv zeta.
  unfold computeEnergyLandscape; cbn [default_arg]; cbv zeta.
  rewrite (for_while_runs _ _ (S s) fuel 0); [| | | exact Hfuel].
  - rewrite (fold_left_push _ (seq 0 (S s)) []). cbn [app].
    eexists; split; [reflexivity|].
    split; [rewrite length_map, length_seq; reflexivity|].
    intros i Hi.
    rewrite nth_error_map, nth_error_seq.
    destruct (Nat.ltb_spec i (S s)) as [_|Hbad]; [|lia].
    reflexivity.
  - intros j Hj. cbn [jle]. apply Rleb_true, le_INR. lia.
  - cbn [jle Nat.add]. apply Rleb_false. rewrite S_INR. lra.
Qed.

(** X13: degenerate step counts.  With steps = 0 and finite hMin, hMax,
    [computeEnergyLandscape] returns the single point [[NaN, NaN]] on every
    instance (the step (hMax - hMin) / 0 is infinite or NaN, and 0 times it
    is NaN); with a negative or NaN steps it returns no point. *)
Theorem energy_landscape_degenerate (m : KreslingModel) :
  (forall (hMin hMax : R) (fuel : nat), (2 <= fuel)%nat ->
     computeEnergyLandscape fuel m (Some (Num hMin)) (Some (Num hMax))
       (Some (Num 0)) = Some [(NaN, NaN)]) /\
  (forall (hMin hMax steps : number) (fuel : nat), (1 <= fuel)%nat ->
     jle (Num 0) steps = false ->
     computeEnergyLandscape fuel m (Some hMin) (Some hMax) (Some steps)
     = Some []).
Proof.
  split.
  - intros hMin hMax fuel Hfuel.
    destruct fuel as [|[|fuel]]; try lia.
    unfold computeEnergyLandscape; cbn [default_arg]; cbv zeta.
    cbn [for_while]. replace (INR 0) with 0 by reflexivity.
    replace (INR 1) with 1 by reflexivity.
    cbn [jle]. rewrite (Rleb_true 0 0) by lra. rewrite (Rleb_false 1 0) by lra.
    assert (Hh : jadd (Num hMin)
                   (jmul (Num 0) (jdiv (jsub (Num hMax) (Num hMin)) (Num 0)))
                 = NaN).
    { cbn [jsub jdiv]. rewrite (Reqb_true 0 0) by reflexivity.
      destruct (Reqb (hMax - hMin) 0); cbn [jmul jadd];
        rewrite ?(Reqb_true 0 0) by reflexivity; reflexivity. }
    rewrite Hh, NaN_energy. reflexivity.
  - intros hMin hMax steps fuel Hfuel Hneg.
    destruct fuel as [|fuel]; [lia|].
    unfold computeEnergyLandscape; cbn [default_arg]; cbv zeta.
    cbn [for_while]. replace (INR 0) with 0 by reflexivity.
    rewrite Hneg. reflexivity.
Qed.

(** ** Heights of the layers *)

Section Shares.

Variable A : Arithmetic.
Hypothesis Hmono : monotone A.
Hypothesis Hzero : representable A 0.
Hypothesis Hone : representable A 1.

Lemma monotone_nonneg (x : R) :
  0 <= x -> exists u, (rnd A x = Infinity \/ rnd A x = Num u) /\ 0 <= u.
Proof.
  intros Hx. pose proof (Hmono 0 x Hx) as H. rewrite Hzero in H.
  destruct (rnd A x) as [|[|]|u]; cbn [jle negb] in H; try discriminate.
  - exists 0. split; [left; reflexivity | lra].
  - exists u. split; [right; reflexivity | apply Rleb_spec; exact H].
Qed.

(** A share [x * q] of a height [x] that is a number of the arithmetic, for
    a ratio [q] between 0 and 1, is between 0 and [x]. *)
Lemma share_within (x q : R) :
  representable A x -> 0 <= x -> 0 <= q <= 1 ->
  jle (Num 0) (rnd A (x * q)) = true /\ jle (rnd A (x * q)) (Num x) = true.
Proof.
  intros Hx H0 Hq.
  assert (Hlo : 0 <= x * q) by (apply Rmult_le_pos; lra).
  assert (Hhi : x * q <= x).
  { assert (0 <= x * (1 - q)) by (apply Rmult_le_pos; lra). lra. }
  split.
  - rewrite <- Hzero. apply Hmono; exact Hlo.
  - rewrite <- Hx. apply Hmono; exact Hhi.
Qed.

(** The sum of heights that are not negative is Infinity or a number that
    is not negative. *)
Lemma total_nonneg (hs : list R) :
  Forall (fun x => 0 <= x) hs ->
  forall acc : number,
  (acc = Infinity \/ exists u, acc = Num u /\ 0 <= u) ->
  let total := fold_left (fun sum x => Rounded.add A sum x) (map Num hs) acc in
  total = Infinity \/ exists v, total = Num v /\ 0 <= v.
Proof.
  induction 1 as [|x l Hx Hl IH]; intros acc Hacc; cbn [map fold_left];
    [exact Hacc|].
  apply IH.
  destruct Hacc as [->|(u & -> & Hu)]; cbn [Rounded.add];
    [left; reflexivity|].
  destruct (monotone_nonneg (u + x)) as (w & [Hw|Hw] & Hw0); [lra | |];
    rewrite Hw; [left; reflexivity | right; exists w; split; [reflexivity | exact Hw0]].
Qed.

Lemma ratio_within (T v : R) :
  0 <= T -> T < v ->
  exists q, rnd A (T / v) = Num q /\ 0 <= q <= 1.
Proof.
  intros HT Hv.
  assert (Hq : 0 <= T / v <= 1).
  { split; [apply Rmult_le_pos; [lra | apply Rlt_le, Rinv_0_lt_compat; lra]|].
    apply Rmult_le_reg_r with v; [lra|].
    unfold Rdiv. rewrite Rmult_assoc, Rinv_l by lra. lra. }
  pose proof (Hmono 0 (T / v) (proj1 Hq)) as Hlo. rewrite Hzero in Hlo.
  pose proof (Hmono (T / v) 1 (proj2 Hq)) as Hhi. rewrite Hone in Hhi.
  destruct (rnd A (T / v)) as [|[|]|q]; cbn [jle negb] in Hlo, Hhi;
    try discriminate.
  exists q. split; [reflexivity|].
  split; apply Rleb_spec; assumption.
Qed.

(** X14: [distributeHeight] never gives a layer more than its deployed
    height.  On an arithmetic whose rounding keeps the order of results and
    leaves 0 and 1 as they are, when the deployed heights h1 are numbers of
    the arithmetic that are not negative and the total height T is a finite
    number that is not negative, every height that
    [distributeHeight(T)] returns is at least 0 and at most the deployed
    height of its layer, whatever rounding and overflow do to the sum and to
    the ratio. *)
Theorem distributeHeight_within_deployed
  (optimizedParameters : list LayerParameters) (hs : list R) (T : R) :
  map h1 optimizedParameters = map Num hs ->
  Forall (representable A) hs -> Forall (fun x => 0 <= x) hs -> 0 <= T ->
  Forall2 (fun y x => jle (Num 0) y = true /\ jle y (Num x) = true)
    (Rounded.distributeHeight A optimizedParameters (Num T)) hs.
Proof.
  intros Hmap Hrep Hpos HT.
  assert (Hsame : Forall2 (fun y x => jle (Num 0) y = true /\ jle y (Num x) = true)
                    (map Num hs) hs).
  { clear -Hpos. induction Hpos as [|x l Hx Hl IH]; cbn [map]; constructor;
      [|exact IH].
    cbn [jle]. split; apply Rleb_true; lra. }
  assert (Hscaled : forall q, 0 <= q <= 1 ->
            Forall2 (fun y x => jle (Num 0) y = true /\ jle y (Num x) = true)
              (map (fun y => Rounded.mul A y (Num q)) (map Num hs)) hs).
  { intros q Hq. clear Hsame Hmap.
    induction Hpos as [|x l Hx Hl IH]; cbn [map]; [constructor|].
    inversion Hrep as [|x' l' Hrx Hrl]; subst.
    constructor; [|exact (IH Hrl)].
    cbn [Rounded.mul]. apply share_within; assumption. }
  unfold Rounded.distributeHeight; cbv zeta.
  change (map (fun params => h1 params) optimizedParameters)
    with (map h1 optimizedParameters).
  rewrite Hmap.
  destruct (total_nonneg hs Hpos (Num 0)) as [HD|(v & HD & Hv)];
    [right; exists 0; split; [reflexivity | lra] | |];
    cbv zeta in HD; rewrite HD.
  - unfold jge; cbn [jle Rounded.div].
    apply (Hscaled 0). lra.
  - unfold jge; cbn [jle]. unfold Rleb.
    destruct (Rle_dec v T) as [Hle|Hgt]; [exact Hsame|].
    assert (HTv : T < v) by lra.
    cbn [Rounded.div]. rewrite (Reqb_false v 0) by lra.
    destruct (ratio_within T v HT HTv) as (q & -> & Hq).
    apply Hscaled; exact Hq.
Qed.

End Shares.

(** ** The phase, again *)

Lemma bounded_is_finite (x : number) :
  jle (Math_abs x) (Num 1) = true -> exists l, x = Num l /\ Rabs l <= 1.
Proof.
  destruct x as [|s|l]; cbn [Math_abs jle]; try discriminate.
  intros H. exists l. split; [reflexivity|].
  unfold Rleb in H. destruct (Rle_dec (Rabs l) 1); [assumption | discriminate].
Qed.

Lemma finite_product_sin (x y : number) (l : R) :
  jmul x (Math_sin y) = Num l -> exists t, y = Num t.
Proof.
  destruct y as [|s|t]; cbn [Math_sin].
  - destruct x; discriminate.
  - destruct x; discriminate.
  - intros _. exists t. reflexivity.
Qed.

(** X15: [calculatePhase()] never answers "bistable-nonzero-energy".  On
    every instance the program can hold it returns "bistable-zero-energy"
    when |lambda| <= 1 and "monostable" otherwise: the two stable twist
    angles asin(lambda) - pi/n and pi - asin(lambda) - pi/n always enclose
    phi0 = pi/2 - pi/n, so the last test of the method cannot fail. *)
Theorem phase_is_two_valued (m : KreslingModel) :
  reachable m ->
  fst (calculatePhase m)
  = if jle (Math_abs (lambda m)) (Num 1)
    then "bistable-zero-energy"%string else "monostable"%string.
Proof.
  intros Hr.
  pose proof (findStableStates_coherent m (reachable_coherent m Hr)) as Hss.
  unfold calculatePhase.
  assert (Hsame : forall ss m', findStableStates m = (ss, m') ->
            lambda m' = lambda m /\ n m' = n m /\ r m' = r m /\
            R_ m' = R_ m /\ c m' = c m).
  { intros ss m' Hf. unfold findStableStates in Hf.
    destruct (_stableStates m); inversion Hf; subst; repeat split; reflexivity. }
  destruct (findStableStates m) as [ss m'] eqn:Hf. cbn [fst] in Hss.
  destruct (Hsame ss m' eq_refl) as (Hl & Hn & Hrr & HR & Hc).
  rewrite Hl, Hn, Hrr, HR, Hc; clear Hsame. subst ss.
  unfold computeStableStates; cbv zeta.
  destruct (jle (Math_abs (lambda m)) (Num 1)) eqn:Hle;
    cbn [state1 state2 phi fst]; [|reflexivity].
  destruct (bounded_is_finite _ Hle) as (l & Hlam & Hl1).
  assert (Htheta : exists t, jdiv Math_PI (n m) = Num t).
  { unfold lambda in Hlam. apply finite_product_sin in Hlam. exact Hlam. }
  destruct Htheta as (t & Ht).
  rewrite Hlam, Ht.
  unfold jgt at 1. cbn [Math_abs jlt]. rewrite (Rltb_false 1 (Rabs l)) by exact Hl1.
  destruct (jgt (c m) _); cbn [fst]; [reflexivity|].
  unfold Math_asin. rewrite (Rleb_true _ _ Hl1).
  unfold Math_PI in *. js_arith. rewrite jdiv_Num by lra. js_arith.
  pose proof (asin_bound l) as [Hlo Hhi].
  cbn [jle]. rewrite !Rleb_true by lra. reflexivity.
Qed.

(** ** Negative heights *)

Lemma jpow2_neg (x : number) : jpow (jneg x) 2 = jpow x 2.
Proof.
  destruct x as [|s|u]; cbn [jneg jpow]; try reflexivity.
  - destruct s; reflexivity.
  - f_equal. ring.
Qed.

(** X16: the crease lengths and the energy do not tell h from -h: for every
    instance and all numbers h and phi, [computeCreaseLength(-h, phi)] and
    [computeEnergy(-h, phi)] return what they return for h. *)
Theorem energy_even_in_height (m : KreslingModel) (h phi : number) :
  computeCreaseLength m (jneg h) phi = computeCreaseLength m h phi /\
  computeEnergy m (jneg h) phi = computeEnergy m h phi.
Proof.
  assert (Hc : computeCreaseLength m (jneg h) phi = computeCreaseLength m h phi).
  { unfold computeCreaseLength; cbv zeta. rewrite jpow2_neg. reflexivity. }
  split; [exact Hc|].
  unfold computeEnergy. rewrite Hc. reflexivity.
Qed.

(** ** The further properties at concrete units *)

Lemma INR_3 : INR 3 = 3.
Proof. rewrite INR_IZR_INZ; reflexivity. Qed.

Lemma fractional_n : n (constructor fractional_params) = Num (5 / 2).
Proof. cbn [constructor n fractional_params params_n].
  apply or_default_truthy, truthy_Num. lra. Qed.

Lemma getVertexCoordinates_count_witness :
  exists v,
    getVertexCoordinates 4 (constructor fractional_params) (Num 2) (Num 0)
    = Some v /\
    List.length (topVertices v) = 3%nat /\
    List.length (bottomVertices v) = 3%nat.
Proof.
  apply (getVertexCoordinates_count (constructor fractional_params)
           (5 / 2) 3 4 (Num 2) (Num 0) fractional_n).
  - lra.
  - rewrite INR_3; lra.
  - rewrite INR_3; lra.
  - lia.
Defined.



Lemma update_is_fresh_unit_witness :
  let m' := setModelParameter P_a (Num 2) (constructor no_params) in
  m' = constructor (params_of m').
Proof.
  cbv zeta.
  apply (update_is_fresh_unit P_a (Num 2) (constructor no_params) eq_refl);
    apply truthy_Num; lra.
Defined.

Lemma P_a_is_not_P_b : P_a <> P_b.
Proof. discriminate. Qed.

Lemma updates_compose_witness :
  let m := constructor no_params in
  updateModelParameter P_a (Num 2) (updateModelParameter P_b (Num 4) m)
  = updateModelParameter P_b (Num 4) (updateModelParameter P_a (Num 2) m) /\
  updateModelParameter P_a (Num 2) (updateModelParameter P_a (Num 5) m)
  = updateModelParameter P_a (Num 2) m.
Proof.
  cbv zeta. split.
  - exact (proj1 (updates_compose (constructor no_params) (Num 2) (Num 4))
                 P_a P_b eq_refl eq_refl P_a_is_not_P_b).
  - exact (proj2 (updates_compose (constructor no_params) (Num 2) (Num 5)) P_a).
Defined.

Lemma zero_a_or_n_no_stable_states_witness :
  let m' := updateModelParameter P_a (Num 0)
              (constructor (valid_params 6 1 1 1 (PI / 2) 1)) in
  fst (findStableStates m') = {| state1 := None; state2 := None |} /\
  fst (isBistable m') = false.
Proof.
  cbv zeta.
  exact (zero_a_or_n_no_stable_states
           (constructor (valid_params 6 1 1 1 (PI / 2) 1)) P_a
           (or_introl eq_refl)).
Defined.

Lemma state_panel_never_monostable_witness :
  exists s1 s2 barrier,
    fst (updateStableStatesInfo (constructor (valid_params 6 1 1 1 (PI / 2) 1)))
    = InfoBistable s1 s2 barrier.
Proof.
  destruct (state_panel_never_monostable _
              (reach_new (valid_params 6 1 1 1 (PI / 2) 1)))
    as (_ & Hbi & _).
  exact (Hbi lambda_example).
Defined.

Lemma energy_landscape_points_witness :
  exists l,
    computeEnergyLandscape 102 (constructor no_params)
      (Some (Num 0)) (Some (Num 4)) (Some (Num (INR 100))) = Some l /\
    List.length l = 101%nat.
Proof.
  assert (Hs : INR 100 <= 4294967294) by (rewrite INR_100; lra).
  assert (Hfuel : (101 < 102)%nat) by lia.
  destruct (energy_landscape_points (constructor no_params) (Num 0) (Num 4)
              100 102 Hs Hfuel)
    as (l & Hl & Hlen & _).
  exists l. split; [exact Hl | exact Hlen].
Defined.

Lemma minus_one_not_nonneg : jle (Num 0) (Num (-1)) = false.
Proof. cbn [jle]. apply Rleb_false. lra. Qed.

Lemma energy_landscape_degenerate_witness :
  let m := constructor no_params in
  computeEnergyLandscape 2 m (Some (Num 0)) (Some (Num 4)) (Some (Num 0))
  = Some [(NaN, NaN)] /\
  computeEnergyLandscape 1 m (Some (Num 0)) (Some (Num 4)) (Some (Num (-1)))
  = Some [].
Proof.
  cbv zeta.
  assert (H2 : (2 <= 2)%nat) by lia. assert (H1 : (1 <= 1)%nat) by lia.
  split.
  - exact (proj1 (energy_landscape_degenerate (constructor no_params))
                 0 4 2%nat H2).
  - exact (proj2 (energy_landscape_degenerate (constructor no_params))
                 (Num 0) (Num 4) (Num (-1)) 1%nat H1 minus_one_not_nonneg).
Defined.

Lemma example_layers_heights :
  map h1 example_layers = map Num [4 / 5; 3 / 5].
Proof. reflexivity. Qed.

Lemma distributeHeight_within_deployed_witness :
  Forall2 (fun y x => jle (Num 0) y = true /\ jle y (Num x) = true)
    (Rounded.distributeHeight overflowing_arithmetic example_layers
       (Num (7 / 10)))
    [4 / 5; 3 / 5].
Proof.
  pose proof threshold_bounds as Ht.
  apply (distributeHeight_within_deployed overflowing_arithmetic
           overflowing_monotone).
  - apply overflowing_small. rewrite Rabs_R0; lra.
  - apply overflowing_small. rewrite Rabs_pos_eq; lra.
  - exact example_layers_heights.
  - repeat constructor; apply overflowing_small; rewrite Rabs_pos_eq; lra.
  - repeat constructor; lra.
  - lra.
Defined.

Lemma phase_is_two_valued_witness :
  fst (calculatePhase (constructor (valid_params 6 1 1 1 (PI / 2) 1)))
  = "bistable-zero-energy"%string.
Proof.
  rewrite (phase_is_two_valued _ (reach_new (valid_params 6 1 1 1 (PI / 2) 1))).
  rewrite lambda_example. reflexivity.
Defined.
